(** * Wheel of Life: the priority scorer and the mail-send endpoint

    A shallow embedding of
      - the shared schema module, imported as @shared/schema (categories,
        labels, the zod request schemas),
      - server/routes.ts (calculateResults, generateEmailHTML and the
        POST /api/email-results handler),
      - the WheelOfLife page component (its own copy of calculateResults),
    followed by the properties of the scorer and of the endpoint.

    Numbers.  A JavaScript number that reaches this code is a finite
    double: the server receives it through JSON, the client from a slider.
    Every finite double is a rational, so numbers are modelled as [Q], and
    two rationals denote the same number when they are [Qeq]-equal ([==]).
    Comparisons of doubles are exact.  The code's [-] and [*] round to the
    nearest double; the model's do not.  The two agree where operands and
    result are whole numbers below 2^53, so on the whole-number ratings
    from 1 to 10 that the form produces; the schema also lets through
    ratings such as 1.1, on which the code rounds.  A property that states
    the value of a difference or of a product is therefore stated for
    whole-number ratings in [1, 10] only. *)

From Stdlib Require Import QArith Lqa Sorting.Sorted.
From stdpp Require Import gmap strings list fin_maps.

Set Warnings "-register-all".
#[global] Instance Q_inhabited : Inhabited Q := populate 0%Q.

(** ** The JavaScript operators the code relies on *)

Module JS.

Open Scope Q_scope.

(** A value decoded from a JSON request body. *)
Inductive json :=
| JNull
| JBool (b : bool)
| JNum (q : Q)
| JStr (s : string)
| JArr (l : list json)
| JObj (o : gmap string json).

(** Truthiness of a [string | undefined], as in [!process.env.X] and
    [name ? .. : ..]: [undefined] and the empty string are falsy. *)
Definition truthy_string (x : option string) : bool :=
  match x with
  | Some s => negb (String.eqb s EmptyString)
  | None => false
  end.

(** [x || d] where [x] is a property read of type number: [x] is
    [undefined] when the property is absent, and both [undefined] and
    [0] are falsy. *)
Definition or_else (x : option Q) (d : Q) : Q :=
  match x with
  | Some q => if Qeq_bool q 0 then d else q
  | None => d
  end.

(** [Array.prototype.sort(cmp)].  ECMAScript (2019 on) requires the sort
    to be stable: [a] stays before a later [b] unless [cmp a b > 0].  For
    a comparator that is a consistent order every stable sort returns the
    same array; insertion from the right is the executable one used
    here. *)
Fixpoint sort_insert {A} (cmp : A → A → Q) (x : A) (l : list A) : list A :=
  match l with
  | [] => [x]
  | y :: l' =>
      if Qle_bool (cmp x y) 0 then x :: y :: l'
      else y :: sort_insert cmp x l'
  end.

Definition sort {A} (cmp : A → A → Q) (l : list A) : list A :=
  foldr (sort_insert cmp) [] l.

End JS.

(** ** The shared schema module (@shared/schema) *)

Module Schema.

(** [LifeCategory] is the union of the eight string literals of
    [lifeCategories]; [key] gives the literal back. *)
Inductive LifeCategory :=
| health | relationships | romance | personal
| fun_ | community | career | finances.

#[global] Instance LifeCategory_eq_dec : EqDecision LifeCategory.
Proof. solve_decision. Defined.

Definition lifeCategories : list LifeCategory :=
  [health; relationships; romance; personal; fun_; community; career; finances].

Definition key (c : LifeCategory) : string :=
  match c with
  | health => "health"
  | relationships => "relationships"
  | romance => "romance"
  | personal => "personal"
  | fun_ => "fun"
  | community => "community"
  | career => "career"
  | finances => "finances"
  end.

Definition lifeCategoryLabels (c : LifeCategory) : string :=
  match c with
  | health => "Health & Fitness"
  | relationships => "Friends & Family"
  | romance => "Romance / Love Life"
  | personal => "Personal Development"
  | fun_ => "Fun & Recreation"
  | community => "Community & Contribution"
  | career => "Career / Business"
  | finances => "Finances"
  end.

(** [AssessmentData]: two [Record<string, number>]. *)
Module AssessmentData.
Record t := mk {
  satisfaction : gmap string Q;
  motivation : gmap string Q
}.
End AssessmentData.

(** An element of [CalculatedResults.priorityRanked]. *)
Module Ranked.
Record t := mk {
  category : LifeCategory;
  label : string;
  satisfaction : Q;
  motivation : Q;
  improvement : Q;
  priority : Q
}.
End Ranked.

Module CalculatedResults.
Record t := mk {
  satisfaction : gmap string Q;
  motivation : gmap string Q;
  improvement : gmap string Q;
  priority : gmap string Q;
  priorityRanked : list Ranked.t
}.
End CalculatedResults.

Module EmailResultsRequest.
Record t := mk {
  email : string;
  name : option string;
  updates : option bool;
  assessmentData : AssessmentData.t
}.
End EmailResultsRequest.

(** *** The zod schemas, as parsers: [None] is a thrown [ZodError]. *)

Import JS.

(** [z.number().min(1).max(10)]: a number, at least 1, at most 10. *)
Definition rating (j : json) : option Q :=
  match j with
  | JNum q => if Qle_bool 1 q && Qle_bool q 10 then Some q else None
  | _ => None
  end.

(** [z.record(rating)]: an object (not an array, not null) all of whose
    values parse as ratings.  zod validates the value of every key of the
    object, and builds the record it returns from all of them but a key
    named [__proto__], which it leaves out. *)
Definition record_of_ratings (j : option json) : option (gmap string Q) :=
  match j with
  | Some (JObj o) =>
      if decide (map_Forall (λ _ v, is_Some (rating v)) o)
      then Some (delete "__proto__" (omap rating o))
      else None
  | _ => None
  end.

(** [assessmentSchema = z.object({ satisfaction: .., motivation: .. })]. *)
Definition assessmentSchema (j : option json) : option AssessmentData.t :=
  match j with
  | Some (JObj o) =>
      match record_of_ratings (o !! "satisfaction"),
            record_of_ratings (o !! "motivation") with
      | Some s, Some m => Some (AssessmentData.mk s m)
      | _, _ => None
      end
  | _ => None
  end.

(** [z.string().optional()] and [z.boolean().optional()]. *)
Definition string_optional (j : option json) : option (option string) :=
  match j with
  | None => Some None
  | Some (JStr s) => Some (Some s)
  | Some _ => None
  end.

Definition boolean_optional (j : option json) : option (option bool) :=
  match j with
  | None => Some None
  | Some (JBool b) => Some (Some b)
  | Some _ => None
  end.

Section EmailSchema.
(** zod's test of [.email()] on a string (a regular expression of the
    zod library). *)
Variable is_email : string → bool.

(** [z.string().email()]. *)
Definition string_email (j : option json) : option string :=
  match j with
  | Some (JStr s) => if is_email s then Some s else None
  | _ => None
  end.

(** [emailResultsSchema = z.object({ email, name, updates,
    assessmentData })]. *)
Definition emailResultsSchema (body : json) : option EmailResultsRequest.t :=
  match body with
  | JObj o =>
      match string_email (o !! "email"),
            string_optional (o !! "name"),
            boolean_optional (o !! "updates"),
            assessmentSchema (o !! "assessmentData") with
      | Some e, Some n, Some u, Some a => Some (EmailResultsRequest.mk e n u a)
      | _, _, _, _ => None
      end
  | _ => None
  end.
End EmailSchema.

End Schema.

(** ** server/routes.ts: calculateResults *)

Module Server.
Import Schema.
Open Scope Q_scope.

(** The empty [results] object the function starts from. *)
Definition results0 : CalculatedResults.t :=
  CalculatedResults.mk ∅ ∅ ∅ ∅ [].

(** The body of [lifeCategories.forEach(category => ...)]: four property
    writes on [results].  [10 - satisfaction] and the product are the
    exact difference and product; they are what the code computes when
    the ratings are whole numbers in [1, 10] (see the note on numbers at
    the head of the file). *)
Definition forEach_body (assessmentData : AssessmentData.t)
    (results : CalculatedResults.t) (category : LifeCategory)
    : CalculatedResults.t :=
  let satisfaction :=
    JS.or_else (AssessmentData.satisfaction assessmentData !! key category) 1 in
  let motivation :=
    JS.or_else (AssessmentData.motivation assessmentData !! key category) 1 in
  CalculatedResults.mk
    (<[key category := satisfaction]> (CalculatedResults.satisfaction results))
    (<[key category := motivation]> (CalculatedResults.motivation results))
    (<[key category := 10 - satisfaction]> (CalculatedResults.improvement results))
    (<[key category := (10 - satisfaction) * motivation]>
       (CalculatedResults.priority results))
    (CalculatedResults.priorityRanked results).

(** The projection under [.map(category => ...)]: each field is a
    property read of [results].  [m !!! k] is the entry of [k]; for a key
    with no entry it is 0 where JavaScript has [undefined], a case the
    loop above rules out, since it writes all four entries of every
    category ([loop_entries] below). *)
Definition ranked_item (results : CalculatedResults.t)
    (category : LifeCategory) : Ranked.t :=
  Ranked.mk category
    (lifeCategoryLabels category)
    (CalculatedResults.satisfaction results !!! key category)
    (CalculatedResults.motivation results !!! key category)
    (CalculatedResults.improvement results !!! key category)
    (CalculatedResults.priority results !!! key category).

(** The comparator [(a, b) => b.priority - a.priority]. *)
Definition by_priority (a b : Ranked.t) : Q :=
  Ranked.priority b - Ranked.priority a.

Definition calculateResults (assessmentData : AssessmentData.t)
    : CalculatedResults.t :=
  let results := foldl (forEach_body assessmentData) results0 lifeCategories in
  CalculatedResults.mk
    (CalculatedResults.satisfaction results)
    (CalculatedResults.motivation results)
    (CalculatedResults.improvement results)
    (CalculatedResults.priority results)
    (JS.sort by_priority (map (ranked_item results) lifeCategories)).

(** *** server/routes.ts: generateEmailHTML

    The markup is fixed text; the model keeps what the template
    interpolates: the greeting and the first three ranked items. *)

Record EmailHTML := {
  greeting : string;
  topPriorities : list Ranked.t
}.

Definition generateEmailHTML (results : CalculatedResults.t)
    (name : option string) : EmailHTML :=
  {| greeting :=
       if JS.truthy_string name
       then "Hi " +:+ default EmptyString name +:+ ","
       else "Hello,";
     topPriorities := take 3 (CalculatedResults.priorityRanked results) |}.

(** *** server/routes.ts: the handler of POST /api/email-results

    The handler is a sequence of calls inside one [try]/[catch].  It is
    modelled in a writer-and-exception monad: a computation yields the
    trace of the calls it made, in order, and either a value or the error
    thrown.  [calculateResults] is pure; its call is put on the trace so
    that where scoring happens can be stated. *)

Record Response := {
  status : Z;
  success : bool;
  message : string
}.

Record Transport := {
  service : string;
  user : string;
  pass : string
}.

Record MailOptions := {
  from : string;
  to : string;
  subject : string;
  html : EmailHTML
}.

Inductive Error :=
| ZodError
| SendMailError.

Inductive Event :=
| Call_calculateResults (assessmentData : AssessmentData.t)
| Call_createTransport (t : Transport)
| Call_sendMail (t : Transport) (m : MailOptions)
| Call_console_error (e : Error)
| Respond (r : Response).

Definition M (A : Type) : Type := list Event * (Error + A).

#[local] Instance M_ret : MRet M := λ A a, ([], inr a).

#[local] Instance M_bind : MBind M := λ A B f m,
  match m with
  | (t, inl e) => (t, inl e)
  | (t, inr a) => let '(t', r) := f a in (t ++ t', r)
  end.

Definition throw {A} (e : Error) : M A := ([], inl e).

Definition try_catch {A} (m : M A) (handler : Error → M A) : M A :=
  match m with
  | (t, inl e) => let '(t', r) := handler e in (t ++ t', r)
  | (t, inr a) => (t, inr a)
  end.

Definition emit (ev : Event) : M unit := ([ev], inr tt).

(** [res.status(500).json(..)] and [res.json(..)] (status 200). *)
Definition respond (st : Z) (ok : bool) (msg : string) : M unit :=
  emit (Respond {| status := st; success := ok; message := msg |}).

Definition not_configured : Response :=
  {| status := 500; success := false;
     message := "Email service is not configured. Please contact support." |}.

Definition failed_to_send : Response :=
  {| status := 500; success := false;
     message :=
       "Failed to send email. Please check your email address and try again." |}.

Definition results_sent : Response :=
  {| status := 200; success := true; message := "Results sent successfully!" |}.

(** The double-quote character of the [from] template. *)
Definition quote : string := String (Ascii.ascii_of_nat 34) EmptyString.

Section Handler.
(** zod's email test, and whether the transport's [sendMail] resolves
    (it rejects on a network, authentication or mailbox failure). *)
Variable is_email : string → bool.
Variable sendMail_resolves : Transport → MailOptions → bool.

Definition parse (body : JS.json) : M EmailResultsRequest.t :=
  match emailResultsSchema is_email body with
  | Some validatedData => mret validatedData
  | None => throw ZodError
  end.

Definition sendMail (transporter : Transport) (m : MailOptions) : M unit :=
  emit (Call_sendMail transporter m) ;;
  if sendMail_resolves transporter m then mret tt else throw SendMailError.

(** [env] is [process.env]; [body] is [req.body].  [env !!! k] is read
    only past the guard that finds both variables set and not empty. *)
Definition email_results (env : gmap string string) (body : JS.json) : M unit :=
  try_catch
    (if negb (JS.truthy_string (env !! "GMAIL_USER"))
        || negb (JS.truthy_string (env !! "GMAIL_APP_PASSWORD"))
     then
       respond 500 false "Email service is not configured. Please contact support."
     else
       validatedData ← parse body;
       emit (Call_calculateResults (EmailResultsRequest.assessmentData validatedData)) ;;
       let results :=
         calculateResults (EmailResultsRequest.assessmentData validatedData) in
       let transporter :=
         {| service := "gmail";
            user := env !!! "GMAIL_USER";
            pass := env !!! "GMAIL_APP_PASSWORD" |} in
       emit (Call_createTransport transporter) ;;
       let emailHTML :=
         generateEmailHTML results (EmailResultsRequest.name validatedData) in
       sendMail transporter
         {| from := quote +:+ "Wheel of Life Assessment" +:+ quote +:+ " <"
                    +:+ (env !!! "GMAIL_USER") +:+ ">";
            to := EmailResultsRequest.email validatedData;
            subject := "Your Wheel of Life Assessment Results";
            html := emailHTML |} ;;
       respond 200 true "Results sent successfully!")
    (λ error,
       emit (Call_console_error error) ;;
       respond 500 false
         "Failed to send email. Please check your email address and try again.").

End Handler.

End Server.

(** ** The WheelOfLife page component: calculateResults

    The page keeps its own copy of the scorer, a closure over the
    [assessmentData] state of the component; the state is the argument
    here. *)

Module Client.
Import Schema.
Open Scope Q_scope.

Definition results0 : CalculatedResults.t :=
  CalculatedResults.mk ∅ ∅ ∅ ∅ [].

(** The body of the loop; as on the server, the difference and the
    product are exact, which is what the code computes on the whole
    numbers from 1 to 10 that the sliders report. *)
Definition forEach_body (assessmentData : AssessmentData.t)
    (results : CalculatedResults.t) (category : LifeCategory)
    : CalculatedResults.t :=
  let satisfaction :=
    JS.or_else (AssessmentData.satisfaction assessmentData !! key category) 1 in
  let motivation :=
    JS.or_else (AssessmentData.motivation assessmentData !! key category) 1 in
  CalculatedResults.mk
    (<[key category := satisfaction]> (CalculatedResults.satisfaction results))
    (<[key category := motivation]> (CalculatedResults.motivation results))
    (<[key category := 10 - satisfaction]> (CalculatedResults.improvement results))
    (<[key category := (10 - satisfaction) * motivation]>
       (CalculatedResults.priority results))
    (CalculatedResults.priorityRanked results).

Definition ranked_item (results : CalculatedResults.t)
    (category : LifeCategory) : Ranked.t :=
  Ranked.mk category
    (lifeCategoryLabels category)
    (CalculatedResults.satisfaction results !!! key category)
    (CalculatedResults.motivation results !!! key category)
    (CalculatedResults.improvement results !!! key category)
    (CalculatedResults.priority results !!! key category).

Definition by_priority (a b : Ranked.t) : Q :=
  Ranked.priority b - Ranked.priority a.

Definition calculateResults (assessmentData : AssessmentData.t)
    : CalculatedResults.t :=
  let results := foldl (forEach_body assessmentData) results0 lifeCategories in
  CalculatedResults.mk
    (CalculatedResults.satisfaction results)
    (CalculatedResults.motivation results)
    (CalculatedResults.improvement results)
    (CalculatedResults.priority results)
    (JS.sort by_priority (map (ranked_item results) lifeCategories)).

End Client.

(** ** Predicates used to state the properties *)

Module Spec.
Import Schema.
Open Scope Q_scope.

(** The place of a category in [lifeCategories]. *)
Definition position (c : LifeCategory) : nat :=
  match c with
  | health => 0 | relationships => 1 | romance => 2 | personal => 3
  | fun_ => 4 | community => 5 | career => 6 | finances => 7
  end.

(** The invariant of an assessment input: every rating that is present
    lies in [1, 10] (what [assessmentSchema] lets through). *)
Definition rating_in_range (q : Q) : Prop := 1 <= q ∧ q <= 10.

Definition valid_input (a : AssessmentData.t) : Prop :=
  map_Forall (λ _ q, rating_in_range q) (AssessmentData.satisfaction a) ∧
  map_Forall (λ _ q, rating_in_range q) (AssessmentData.motivation a).

(** A rational that is a whole number. *)
Definition is_integer (q : Q) : bool :=
  (Qnum q mod Zpos (Qden q) =? 0)%Z.

(** Every rating that is present is a whole number.  With [valid_input]
    this is the assessment input of the form: whole numbers from 1 to 10,
    on which the arithmetic of the scorer is exact. *)
Definition whole_ratings (a : AssessmentData.t) : Prop :=
  map_Forall (λ _ q, is_integer q = true) (AssessmentData.satisfaction a) ∧
  map_Forall (λ _ q, is_integer q = true) (AssessmentData.motivation a).

(** The two ratings the loop reads for a category. *)
Definition read_satisfaction (a : AssessmentData.t) (c : LifeCategory) : Q :=
  JS.or_else (AssessmentData.satisfaction a !! key c) 1.

Definition read_motivation (a : AssessmentData.t) (c : LifeCategory) : Q :=
  JS.or_else (AssessmentData.motivation a !! key c) 1.

(** What the loop has written, for a key, on the four maps at once. *)
Definition entries (r : CalculatedResults.t) (k : string)
    : option Q * option Q * option Q * option Q :=
  (CalculatedResults.satisfaction r !! k,
   CalculatedResults.motivation r !! k,
   CalculatedResults.improvement r !! k,
   CalculatedResults.priority r !! k).

(** The order the ranking must respect: higher priority first, and on
    equal priority the category that comes first in [lifeCategories]. *)
Definition ranks_before (x y : Ranked.t) : Prop :=
  Ranked.priority y <= Ranked.priority x ∧
  (Ranked.priority x == Ranked.priority y →
   (position (Ranked.category x) < position (Ranked.category y))%nat).

Definition listed_before (x y : Ranked.t) : Prop :=
  (position (Ranked.category x) < position (Ranked.category y))%nat.

(** *** What a trace of the handler shows *)

Definition responses (trace : list Server.Event) : list Server.Response :=
  omap (λ ev, match ev with Server.Respond r => Some r | _ => None end) trace.

Definition scores (trace : list Server.Event) : Prop :=
  ∃ a, Server.Call_calculateResults a ∈ trace.

Definition sends (trace : list Server.Event) : Prop :=
  ∃ t m, Server.Call_sendMail t m ∈ trace.

(** *** The assessment data the schema turns away *)

Inductive bad_rating : JS.json → Prop :=
| not_a_number j : (∀ q, j ≠ JS.JNum q) → bad_rating j
| below_one q : q < 1 → bad_rating (JS.JNum q)
| above_ten q : 10 < q → bad_rating (JS.JNum q).

(** Not an object, or an object with a bad rating. *)
Definition bad_record (j : option JS.json) : Prop :=
  (∀ o, j ≠ Some (JS.JObj o)) ∨
  ∃ o k v, j = Some (JS.JObj o) ∧ o !! k = Some v ∧ bad_rating v.

(** Not an object, or an object whose [satisfaction] or [motivation] is
    missing or a bad record. *)
Definition bad_assessment (j : option JS.json) : Prop :=
  (∀ o, j ≠ Some (JS.JObj o)) ∨
  ∃ o, j = Some (JS.JObj o) ∧
       (bad_record (o !! "satisfaction") ∨ bad_record (o !! "motivation")).

End Spec.

(** ** Sample inputs *)

Module Sample.
Import Schema.
Open Scope Q_scope.

(** Only health is rated: satisfaction 7, motivation 9. *)
Definition health_only : AssessmentData.t :=
  AssessmentData.mk {[ "health" := 7 ]} {[ "health" := 9 ]}.

Definition health_item : Ranked.t :=
  Ranked.mk health "Health & Fitness" 7 9 3 27.

Definition relationships_item : Ranked.t :=
  Ranked.mk relationships "Friends & Family" 1 1 9 9.

Definition romance_item : Ranked.t :=
  Ranked.mk romance "Romance / Love Life" 1 1 9 9.

(** Nothing rated. *)
Definition nothing_rated : AssessmentData.t := AssessmentData.mk ∅ ∅.

(** The same ratings, with a key that is not a category on one side. *)
Definition with_extra_key : AssessmentData.t :=
  AssessmentData.mk {[ "health" := 7; "wealth" := 3 ]} {[ "health" := 9 ]}.

(** Health satisfaction sent as 0. *)
Definition health_zero : AssessmentData.t :=
  AssessmentData.mk {[ "health" := 0 ]} {[ "health" := 9 ]}.

(** A stand-in for zod's email test: it accepts one address. *)
Definition is_email (s : string) : bool := String.eqb s "user@example.com".

Definition always_resolves (t : Server.Transport) (m : Server.MailOptions)
    : bool := true.

Definition configured : gmap string string :=
  {[ "GMAIL_USER" := "sender@gmail.com"; "GMAIL_APP_PASSWORD" := "secret" ]}.

Definition no_password : gmap string string :=
  {[ "GMAIL_USER" := "sender@gmail.com" ]}.

(** A request body with the given [email] and satisfaction ratings (and
    no motivation rating). *)
Definition assessment (satisfaction : gmap string JS.json)
    : gmap string JS.json :=
  {[ "satisfaction" := JS.JObj satisfaction; "motivation" := JS.JObj ∅ ]}.

Definition fields (email : JS.json) (satisfaction : gmap string JS.json)
    : gmap string JS.json :=
  {[ "email" := email; "assessmentData" := JS.JObj (assessment satisfaction) ]}.

Definition request (email : JS.json) (satisfaction : gmap string JS.json)
    : JS.json :=
  JS.JObj (fields email satisfaction).

(** Health satisfaction 5.5, a valid address. *)
Definition half_rating : gmap string JS.json := {[ "health" := JS.JNum (11 # 2) ]}.

Definition half_request : JS.json :=
  request (JS.JStr "user@example.com") half_rating.

Definition half_input : AssessmentData.t :=
  AssessmentData.mk {[ "health" := 11 # 2 ]} ∅.

(** Health satisfaction 11, a valid address. *)
Definition eleven_request : JS.json :=
  request (JS.JStr "user@example.com") {[ "health" := JS.JNum 11 ]}.

(** Valid ratings, an address zod turns away. *)
Definition bad_email_request : JS.json :=
  request (JS.JStr "not-an-address") {[ "health" := JS.JNum 7 ]}.

End Sample.

(** ** The WheelOfLife page component: state and handlers

    The component keeps three pieces of state and changes them only in the
    click and slider handlers of the controls it renders. *)

Module Page.
Import Schema.
Open Scope Q_scope.

(** [type Section = "intro" | "satisfaction" | "motivation" | "results"]. *)
Inductive CurrentSection :=
| s_intro
| s_satisfaction
| s_motivation
| s_results.

(** The [type] argument of [updateAssessmentData]:
    ['satisfaction' | 'motivation']. *)
Inductive RatingType :=
| t_satisfaction
| t_motivation.

(** The three [useState] cells. *)
Record State := {
  currentSection : CurrentSection;
  assessmentData : AssessmentData.t;
  calculatedResults : option CalculatedResults.t
}.

(** The initial values passed to [useState]. *)
Definition initial : State :=
  {| currentSection := s_intro;
     assessmentData := AssessmentData.mk ∅ ∅;
     calculatedResults := None |}.

(** [prev[type]]. *)
Definition ratings (type : RatingType) (data : AssessmentData.t)
    : gmap string Q :=
  match type with
  | t_satisfaction => AssessmentData.satisfaction data
  | t_motivation => AssessmentData.motivation data
  end.

(** The updater of [updateAssessmentData]:
    [prev => ({ ...prev, [type]: { ...prev[type], [category]: value } })]. *)
Definition updateAssessmentData (category : LifeCategory) (type : RatingType)
    (value : Q) (prev : AssessmentData.t) : AssessmentData.t :=
  match type with
  | t_satisfaction =>
      AssessmentData.mk
        (<[key category := value]> (AssessmentData.satisfaction prev))
        (AssessmentData.motivation prev)
  | t_motivation =>
      AssessmentData.mk
        (AssessmentData.satisfaction prev)
        (<[key category := value]> (AssessmentData.motivation prev))
  end.

(** [showResults]: score the current data, keep the result, show it. *)
Definition showResults (st : State) : State :=
  let results := Client.calculateResults (assessmentData st) in
  {| currentSection := s_results;
     assessmentData := assessmentData st;
     calculatedResults := Some results |}.

(** The number a slider shows: [assessmentData[type][category] || 5]. *)
Definition sliderValue (data : AssessmentData.t) (type : RatingType)
    (category : LifeCategory) : Q :=
  JS.or_else (ratings type data !! key category) 5.

(** A point of the radar chart. *)
Record RadarPoint := {
  category : string;
  satisfaction : Q;
  fullMark : Q
}.

(** [getRadarData]. *)
Definition getRadarData (calculatedResults : option CalculatedResults.t)
    : list RadarPoint :=
  match calculatedResults with
  | None => []
  | Some results =>
      map (λ c, {| category := lifeCategoryLabels c;
                   satisfaction := CalculatedResults.satisfaction results !!! key c;
                   fullMark := 10 |})
          lifeCategories
  end.

(** The labels under [strongestAreas], before [.join(', ')]. *)
Definition strongestLabels (results : CalculatedResults.t) : list string :=
  map Ranked.label
    (List.filter (λ item, Qle_bool 7 (Ranked.satisfaction item))
       (CalculatedResults.priorityRanked results)).

(** [strongestAreas]; [String.concat] is [Array.prototype.join]. *)
Definition strongestAreas (calculatedResults : option CalculatedResults.t)
    : string :=
  match calculatedResults with
  | Some results => String.concat ", " (strongestLabels results)
  | None => EmptyString
  end.

(** The text shown for the strongest areas:
    [strongestAreas || 'No strong areas identified yet']. *)
Definition strongestAreasText (calculatedResults : option CalculatedResults.t)
    : string :=
  let s := strongestAreas calculatedResults in
  if String.eqb s EmptyString then "No strong areas identified yet" else s.

(** The items under "Priority Areas for Growth":
    [calculatedResults.priorityRanked.slice(0, 3)]. *)
Definition priorityAreas (results : CalculatedResults.t) : list Ranked.t :=
  take 3 (CalculatedResults.priorityRanked results).

(** The label shown as the highest priority:
    [calculatedResults.priorityRanked[0]?.label], [None] for [undefined]. *)
Definition highestPriority (results : CalculatedResults.t) : option string :=
  Ranked.label <$> CalculatedResults.priorityRanked results !! 0%nat.

(** The controls of the page that change its state. *)
Inductive Action :=
| BeginAssessment
| SlideSatisfaction (c : LifeCategory) (value : Q)
| ContinueToMotivation
| SlideMotivation (c : LifeCategory) (value : Q)
| ViewMyResults
| RetakeAssessment.

(** What a control does when used; [None] when the page does not render
    the control in the current section.  Each section of the page is
    rendered under [currentSection === ".."], the results section under
    [currentSection === "results" && calculatedResults]. *)
Definition step (st : State) (act : Action) : option State :=
  match currentSection st, act with
  | s_intro, BeginAssessment =>
      Some {| currentSection := s_satisfaction;
              assessmentData := assessmentData st;
              calculatedResults := calculatedResults st |}
  | s_satisfaction, SlideSatisfaction c value =>
      Some {| currentSection := currentSection st;
              assessmentData :=
                updateAssessmentData c t_satisfaction value (assessmentData st);
              calculatedResults := calculatedResults st |}
  | s_satisfaction, ContinueToMotivation =>
      Some {| currentSection := s_motivation;
              assessmentData := assessmentData st;
              calculatedResults := calculatedResults st |}
  | s_motivation, SlideMotivation c value =>
      Some {| currentSection := currentSection st;
              assessmentData :=
                updateAssessmentData c t_motivation value (assessmentData st);
              calculatedResults := calculatedResults st |}
  | s_motivation, ViewMyResults => Some (showResults st)
  | s_results, RetakeAssessment =>
      match calculatedResults st with
      | Some _ =>
          Some {| currentSection := s_intro;
                  assessmentData := AssessmentData.mk ∅ ∅;
                  calculatedResults := None |}
      | None => None
      end
  | _, _ => None
  end.

(** The state after a sequence of uses, [None] if one of them is not
    possible. *)
Fixpoint run (st : State) (acts : list Action) : option State :=
  match acts with
  | [] => Some st
  | act :: acts' =>
      match step st act with
      | Some st' => run st' acts'
      | None => None
      end
  end.

(** A slider of the page has [min={1} max={10} step={1}]: the values it
    reports are the whole numbers from 1 to 10. *)
Definition slider_value (value : Q) : Prop :=
  ∃ n : Z, (1 <= n <= 10)%Z ∧ value = inject_Z n.

Definition slider_action (act : Action) : Prop :=
  match act with
  | SlideSatisfaction _ value | SlideMotivation _ value => slider_value value
  | _ => True
  end.

(** The states the page can be in: those a sequence of uses, with the
    values the sliders report, leads to from the initial state. *)
Definition reachable (st : State) : Prop :=
  ∃ acts, Forall slider_action acts ∧ run initial acts = Some st.

(** Every stored rating belongs to a category and is a slider value; the
    results are kept exactly in the results section, and are those of the
    stored ratings. *)
Definition invariant (st : State) : Prop :=
  (∀ t k q, ratings t (assessmentData st) !! k = Some q →
            (∃ c, k = key c) ∧ slider_value q) ∧
  (currentSection st = s_results →
   calculatedResults st = Some (Client.calculateResults (assessmentData st))) ∧
  (currentSection st ≠ s_results → calculatedResults st = None).

End Page.

(** ** Requests on the wire and mails in a trace *)

Module Wire.
Import Schema.

(** The JSON text of a [Record<string, number>], decoded: an object with
    one number per key. *)
Definition json_of_ratings (m : gmap string Q) : JS.json :=
  JS.JObj (JS.JNum <$> m).

(** The JSON text of an [AssessmentData], decoded. *)
Definition json_of_assessment (a : AssessmentData.t) : JS.json :=
  JS.JObj {[ "satisfaction" := json_of_ratings (AssessmentData.satisfaction a);
             "motivation" := json_of_ratings (AssessmentData.motivation a) ]}.

(** The [sendMail] calls of a trace, in order. *)
Definition mails (trace : list Server.Event)
    : list (Server.Transport * Server.MailOptions) :=
  omap (λ ev, match ev with
              | Server.Call_sendMail t m => Some (t, m)
              | _ => None
              end) trace.

(** Both secrets are set and not empty. *)
Definition configured (env : gmap string string) : Prop :=
  JS.truthy_string (env !! "GMAIL_USER") = true ∧
  JS.truthy_string (env !! "GMAIL_APP_PASSWORD") = true.

End Wire.

(** * Properties of the scorer *)

Import Schema Spec.
Open Scope Q_scope.

Lemma key_inj c1 c2 : key c1 = key c2 → c1 = c2.
Proof. destruct c1, c2; simpl; intros H; first [ reflexivity | discriminate H ]. Qed.

Lemma elem_of_lifeCategories c : c ∈ lifeCategories.
Proof. unfold lifeCategories. destruct c; set_solver. Qed.

Lemma lifeCategories_position c : lifeCategories !! position c = Some c.
Proof. by destruct c. Qed.

Lemma lifeCategories_lookup_position n c :
  lifeCategories !! n = Some c → n = position c.
Proof.
  unfold lifeCategories.
  do 8 (destruct n as [|n]; [ intros [= <-]; reflexivity | ]).
  discriminate.
Qed.


(** ** The loop over the categories *)

Section Loop.
Variable a : AssessmentData.t.

Lemma forEach_body_entries_eq r c :
  entries (Server.forEach_body a r c) (key c) =
  (Some (read_satisfaction a c), Some (read_motivation a c),
   Some (10 - read_satisfaction a c),
   Some ((10 - read_satisfaction a c) * read_motivation a c)).
Proof.
  unfold entries, Server.forEach_body; simpl.
  by rewrite !lookup_insert_eq.
Qed.

Lemma forEach_body_entries_ne r c k :
  key c ≠ k → entries (Server.forEach_body a r c) k = entries r k.
Proof.
  intros Hne. unfold entries, Server.forEach_body; simpl.
  by rewrite !lookup_insert_ne.
Qed.

Lemma forEach_entries_other l : ∀ r k,
  (∀ c, c ∈ l → key c ≠ k) →
  entries (foldl (Server.forEach_body a) r l) k = entries r k.
Proof.
  induction l as [|x l IH]; intros r k Hk; simpl; [done|].
  rewrite IH.
  - apply forEach_body_entries_ne, Hk. left.
  - intros c Hc. apply Hk. by right.
Qed.

Lemma forEach_entries_written l : ∀ r c,
  c ∈ l →
  entries (foldl (Server.forEach_body a) r l) (key c) =
  (Some (read_satisfaction a c), Some (read_motivation a c),
   Some (10 - read_satisfaction a c),
   Some ((10 - read_satisfaction a c) * read_motivation a c)).
Proof.
  induction l as [|x l IH]; intros r c Hc; simpl.
  - by apply elem_of_nil in Hc.
  - destruct (decide (c ∈ l)) as [Hin|Hout]; [by apply IH|].
    apply elem_of_cons in Hc as [->|Hc]; [|done].
    rewrite forEach_entries_other.
    + apply forEach_body_entries_eq.
    + intros c Hc Heq. apply key_inj in Heq. by subst.
Qed.

(** After the loop every category has its four entries, and no other key
    has any. *)
Lemma loop_entries c :
  entries (foldl (Server.forEach_body a) Server.results0 lifeCategories) (key c) =
  (Some (read_satisfaction a c), Some (read_motivation a c),
   Some (10 - read_satisfaction a c),
   Some ((10 - read_satisfaction a c) * read_motivation a c)).
Proof. apply forEach_entries_written, elem_of_lifeCategories. Qed.

Lemma loop_entries_other k :
  (∀ c, key c ≠ k) →
  entries (foldl (Server.forEach_body a) Server.results0 lifeCategories) k =
  (None, None, None, None).
Proof. intros Hk. rewrite forEach_entries_other; [done|]. intros c _. apply Hk. Qed.

(** The record the ranking step builds for a category. *)
Lemma loop_ranked_item c :
  Server.ranked_item
    (foldl (Server.forEach_body a) Server.results0 lifeCategories) c =
  Ranked.mk c (lifeCategoryLabels c) (read_satisfaction a c) (read_motivation a c)
    (10 - read_satisfaction a c) ((10 - read_satisfaction a c) * read_motivation a c).
Proof.
  pose proof (loop_entries c) as H. unfold entries in H.
  injection H as Hs Hm Hi Hp.
  unfold Server.ranked_item.
  by rewrite (lookup_total_correct _ _ _ Hs), (lookup_total_correct _ _ _ Hm),
    (lookup_total_correct _ _ _ Hi), (lookup_total_correct _ _ _ Hp).
Qed.

End Loop.

(** ** The stable sort *)

Lemma sort_insert_perm {A} (cmp : A → A → Q) x l :
  JS.sort_insert cmp x l ≡ₚ x :: l.
Proof.
  induction l as [|y l IH]; simpl; [done|].
  destruct (Qle_bool (cmp x y) 0); [done|].
  rewrite IH. apply Permutation_swap.
Qed.

Lemma sort_perm {A} (cmp : A → A → Q) l : JS.sort cmp l ≡ₚ l.
Proof.
  induction l as [|x l IH]; simpl; [done|].
  rewrite sort_insert_perm. by f_equiv.
Qed.

Lemma by_priority_le x y :
  Qle_bool (Server.by_priority x y) 0 = true ↔
  Ranked.priority y <= Ranked.priority x.
Proof. rewrite Qle_bool_iff. unfold Server.by_priority. split; intros; lra. Qed.

Lemma sort_insert_sorted x l :
  StronglySorted ranks_before l →
  Forall (listed_before x) l →
  StronglySorted ranks_before (JS.sort_insert Server.by_priority x l).
Proof.
  induction 1 as [|y l Hl IH Hy]; intros Hx; simpl.
  - repeat constructor.
  - apply Forall_cons in Hx as [Hxy Hxl].
    destruct (Qle_bool (Server.by_priority x y) 0) eqn:E.
    + apply by_priority_le in E.
      constructor; [by constructor|].
      constructor; [by split|].
      rewrite Forall_forall in Hy, Hxl. apply Forall_forall.
      intros z Hz. destruct (Hy z Hz) as [Hzy _].
      split; [lra|]. intros _. by apply Hxl.
    + assert (Ranked.priority x < Ranked.priority y) as Hlt.
      { apply Qnot_le_lt. intros Hle. apply by_priority_le in Hle. congruence. }
      constructor; [by apply IH|].
      rewrite sort_insert_perm. constructor; [|done].
      split; [lra|]. intros Heq. lra.
Qed.

Lemma sort_sorted l :
  StronglySorted listed_before l →
  StronglySorted ranks_before (JS.sort Server.by_priority l).
Proof.
  induction 1 as [|x l Hl IH Hx]; simpl; [constructor|].
  apply sort_insert_sorted; [done|].
  by rewrite sort_perm.
Qed.

Lemma StronglySorted_lookup_lt {A} (R : A → A → Prop) l :
  StronglySorted R l →
  ∀ i j x y, (i < j)%nat → l !! i = Some x → l !! j = Some y → R x y.
Proof.
  induction 1 as [|z l Hl IH Hz]; intros i j x y Hij Hi Hj; [done|].
  destruct j as [|j]; [lia|]. simpl in Hj.
  destruct i as [|i]; simpl in Hi.
  - injection Hi as ->. rewrite Forall_forall in Hz.
    apply Hz. by eapply list_elem_of_lookup_2.
  - apply (IH i j); [lia|done..].
Qed.

(** The list handed to [sort] is in the order of [lifeCategories]. *)
Lemma ranked_items_listed r :
  StronglySorted listed_before (map (Server.ranked_item r) lifeCategories).
Proof.
  unfold lifeCategories; simpl.
  repeat (constructor; [|repeat constructor; unfold listed_before; simpl; lia]).
  constructor.
Qed.

Lemma priorityRanked_sorted a :
  StronglySorted ranks_before
    (CalculatedResults.priorityRanked (Server.calculateResults a)).
Proof. apply sort_sorted, ranked_items_listed. Qed.

Lemma priorityRanked_perm a :
  CalculatedResults.priorityRanked (Server.calculateResults a) ≡ₚ
  map (λ c, Ranked.mk c (lifeCategoryLabels c)
              (read_satisfaction a c) (read_motivation a c)
              (10 - read_satisfaction a c)
              ((10 - read_satisfaction a c) * read_motivation a c))
      lifeCategories.
Proof.
  unfold Server.calculateResults; cbn [CalculatedResults.priorityRanked].
  rewrite sort_perm.
  erewrite map_ext; [reflexivity|]. intros c. apply loop_ranked_item.
Qed.

(** ** The result of [calculateResults] *)

Lemma calculateResults_entries a c :
  entries (Server.calculateResults a) (key c) =
  (Some (read_satisfaction a c), Some (read_motivation a c),
   Some (10 - read_satisfaction a c),
   Some ((10 - read_satisfaction a c) * read_motivation a c)).
Proof. apply loop_entries. Qed.

Lemma calculateResults_entries_other a k :
  (∀ c, key c ≠ k) →
  entries (Server.calculateResults a) k = (None, None, None, None).
Proof. apply loop_entries_other. Qed.

Lemma satisfaction_entry a c :
  CalculatedResults.satisfaction (Server.calculateResults a) !! key c =
  Some (read_satisfaction a c).
Proof. exact (f_equal (λ e, e.1.1.1) (calculateResults_entries a c)). Qed.

Lemma motivation_entry a c :
  CalculatedResults.motivation (Server.calculateResults a) !! key c =
  Some (read_motivation a c).
Proof. exact (f_equal (λ e, e.1.1.2) (calculateResults_entries a c)). Qed.

Lemma improvement_entry a c :
  CalculatedResults.improvement (Server.calculateResults a) !! key c =
  Some (10 - read_satisfaction a c).
Proof. exact (f_equal (λ e, e.1.2) (calculateResults_entries a c)). Qed.

Lemma priority_entry a c :
  CalculatedResults.priority (Server.calculateResults a) !! key c =
  Some ((10 - read_satisfaction a c) * read_motivation a c).
Proof. exact (f_equal (λ e, e.2) (calculateResults_entries a c)). Qed.

Lemma or_else_nonzero q d : ¬ q == 0 → JS.or_else (Some q) d = q.
Proof.
  intros Hq. unfold JS.or_else.
  destruct (Qeq_bool q 0) eqn:E; [|done].
  by apply Qeq_bool_iff in E.
Qed.

Lemma or_else_zero q d : q == 0 → JS.or_else (Some q) d = d.
Proof. intros Hq. unfold JS.or_else. by apply Qeq_bool_iff in Hq as ->. Qed.

Lemma or_else_in_range (x : option Q) :
  (∀ q, x = Some q → rating_in_range q) → JS.or_else x 1 = default 1 x.
Proof.
  destruct x as [q|]; [|done]. intros H.
  destruct (H q eq_refl) as [Hlo _]. apply or_else_nonzero.
  intros Hq. rewrite Hq in Hlo. by apply Qle_bool_iff in Hlo.
Qed.

(** The scorer reads its argument only through the sixteen defaulted
    ratings. *)
Lemma calculateResults_ext a1 a2 :
  (∀ c, read_satisfaction a1 c = read_satisfaction a2 c) →
  (∀ c, read_motivation a1 c = read_motivation a2 c) →
  Server.calculateResults a1 = Server.calculateResults a2.
Proof.
  intros Hs Hm.
  assert (∀ l r, foldl (Server.forEach_body a1) r l =
                 foldl (Server.forEach_body a2) r l) as Hloop.
  { induction l as [|c l IH]; intros r; simpl; [done|].
    rewrite IH. f_equal. unfold Server.forEach_body.
    fold (read_satisfaction a1 c) (read_motivation a1 c)
         (read_satisfaction a2 c) (read_motivation a2 c).
    by rewrite Hs, Hm. }
  unfold Server.calculateResults. by rewrite Hloop.
Qed.

Lemma priorityRanked_categories a :
  map Ranked.category
    (CalculatedResults.priorityRanked (Server.calculateResults a)) ≡ₚ
  lifeCategories.
Proof.
  pose proof (Permutation_map Ranked.category (priorityRanked_perm a)) as H.
  rewrite map_map in H. exact H.
Qed.

Lemma NoDup_lifeCategories : NoDup lifeCategories.
Proof. apply (bool_decide_unpack _). by vm_compute. Qed.

(** * The claims on the scorer *)

(** C1. For an assessment input (every present rating a whole number in
    [1, 10]) and each of the eight categories, the scorer yields
    improvement = 10 - satisfaction and
    priority = (10 - satisfaction) * motivation,
    in the two result maps and in the ranked record of the category, where
    satisfaction and motivation are the input's entries for the category,
    or 1 where the input has no entry. *)
Theorem calculateResults_improvement_priority
    (a : AssessmentData.t) (c : LifeCategory)
    (Hvalid : valid_input a) (Hwhole : whole_ratings a) :
  let satisfaction := default 1 (AssessmentData.satisfaction a !! key c) in
  let motivation := default 1 (AssessmentData.motivation a !! key c) in
  let results := Server.calculateResults a in
  CalculatedResults.improvement results !! key c = Some (10 - satisfaction) ∧
  CalculatedResults.priority results !! key c =
    Some ((10 - satisfaction) * motivation) ∧
  ∃ item,
    item ∈ CalculatedResults.priorityRanked results ∧
    Ranked.category item = c ∧
    Ranked.satisfaction item = satisfaction ∧
    Ranked.motivation item = motivation ∧
    Ranked.improvement item = 10 - satisfaction ∧
    Ranked.priority item = (10 - satisfaction) * motivation.
Proof.
  destruct Hvalid as [Hs Hm]. intros satisfaction motivation results.
  assert (read_satisfaction a c = satisfaction) as Es.
  { apply or_else_in_range. intros q Hq. by apply (Hs _ _ Hq). }
  assert (read_motivation a c = motivation) as Em.
  { apply or_else_in_range. intros q Hq. by apply (Hm _ _ Hq). }
  unfold results.
  split; [by rewrite improvement_entry, Es|].
  split; [by rewrite priority_entry, Es, Em|].
  eexists (Ranked.mk c (lifeCategoryLabels c) satisfaction motivation
             (10 - satisfaction) ((10 - satisfaction) * motivation)).
  split; [|done].
  apply (elem_of_Permutation_proper _ _ _ (priorityRanked_perm a)).
  apply list_elem_of_fmap. exists c. rewrite Es, Em.
  split; [done|apply elem_of_lifeCategories].
Qed.

(** C2. The ranked sequence has exactly eight entries, one per fixed
    category: its categories are a rearrangement of [lifeCategories], none
    repeated and none left out. *)
Theorem priorityRanked_one_per_category (a : AssessmentData.t) :
  let ranked := CalculatedResults.priorityRanked (Server.calculateResults a) in
  length ranked = 8%nat ∧
  map Ranked.category ranked ≡ₚ
    [health; relationships; romance; personal; fun_; community; career; finances] ∧
  NoDup (map Ranked.category ranked) ∧
  ∀ c : LifeCategory, c ∈ map Ranked.category ranked.
Proof.
  intros ranked.
  pose proof (priorityRanked_categories a) as Hperm. fold ranked in Hperm.
  split; [|split; [exact Hperm|split]].
  - rewrite <- (length_map Ranked.category).
    by rewrite (Permutation_length Hperm).
  - apply (NoDup_Permutation_proper _ _ Hperm), NoDup_lifeCategories.
  - intros c.
    apply (elem_of_Permutation_proper _ _ _ Hperm), elem_of_lifeCategories.
Qed.

(** C3. The ranked sequence is in descending order of priority, and of
    two entries with equal priority the one whose category comes earlier
    in [lifeCategories] comes first. *)
Theorem priorityRanked_descending_stable (a : AssessmentData.t)
    (i j : nat) (x y : Ranked.t) :
  let ranked := CalculatedResults.priorityRanked (Server.calculateResults a) in
  ranked !! i = Some x →
  ranked !! j = Some y →
  ((i < j)%nat → Ranked.priority y <= Ranked.priority x) ∧
  (Ranked.priority x == Ranked.priority y →
   ∀ n m,
     lifeCategories !! n = Some (Ranked.category x) →
     lifeCategories !! m = Some (Ranked.category y) →
     (n < m)%nat → (i < j)%nat).
Proof.
  intros ranked Hx Hy.
  pose proof (StronglySorted_lookup_lt _ _ (priorityRanked_sorted a)) as Hsorted.
  fold ranked in Hsorted.
  split.
  - intros Hij. by destruct (Hsorted i j x y Hij Hx Hy).
  - intros Heq n m Hn Hm Hnm.
    apply lifeCategories_lookup_position in Hn, Hm. subst n m.
    destruct (lt_eq_lt_dec i j) as [[Hlt|Heqij]|Hgt]; [done|..].
    + subst j. rewrite Hx in Hy. injection Hy as ->. lia.
    + destruct (Hsorted j i y x Hgt Hy Hx) as [_ Htie].
      symmetry in Heq. specialize (Htie Heq). lia.
Qed.

(** C7, as the code has it.  The satisfaction and motivation maps of the
    result hold exactly the eight category keys; the entry of a category
    is the input's entry where the input has one that is not 0, and 1
    otherwise.  Keys of the input outside the eight categories are not in
    the result. *)
Theorem calculateResults_raw_mappings (a : AssessmentData.t) :
  let results := Server.calculateResults a in
  (∀ c : LifeCategory,
     CalculatedResults.satisfaction results !! key c =
       Some (JS.or_else (AssessmentData.satisfaction a !! key c) 1) ∧
     CalculatedResults.motivation results !! key c =
       Some (JS.or_else (AssessmentData.motivation a !! key c) 1)) ∧
  (∀ k : string,
     (∀ c, key c ≠ k) →
     CalculatedResults.satisfaction results !! k = None ∧
     CalculatedResults.motivation results !! k = None).
Proof.
  intros results. split.
  - intros c. split.
    + apply satisfaction_entry.
    + apply motivation_entry.
  - intros k Hk. pose proof (calculateResults_entries_other a k Hk) as H.
    split.
    + exact (f_equal (λ e, e.1.1.1) H).
    + exact (f_equal (λ e, e.1.1.2) H).
Qed.

(** C8. The scorer of the page and the scorer of the server return the
    same result on every input. *)
Theorem client_server_calculateResults (a : AssessmentData.t) :
  Client.calculateResults a = Server.calculateResults a.
Proof. reflexivity. Qed.

(** C9. Two inputs whose satisfaction and motivation maps agree on the
    eight category keys get the same result, whatever other keys they
    hold. *)
Theorem calculateResults_ignores_other_keys (a1 a2 : AssessmentData.t)
    (Hs : ∀ c, AssessmentData.satisfaction a1 !! key c =
               AssessmentData.satisfaction a2 !! key c)
    (Hm : ∀ c, AssessmentData.motivation a1 !! key c =
               AssessmentData.motivation a2 !! key c) :
  Server.calculateResults a1 = Server.calculateResults a2.
Proof.
  apply calculateResults_ext; intros c; unfold read_satisfaction, read_motivation.
  - by rewrite Hs.
  - by rewrite Hm.
Qed.

(** C10. A rating that is present and equal to 0 counts as absent: the
    result is the one for the input with that entry removed, and for a
    category the rating recorded in the result is 1. *)
Theorem calculateResults_zero_as_absent (a : AssessmentData.t)
    (k : string) (q : Q) (Hq : q == 0) :
  (AssessmentData.satisfaction a !! k = Some q →
   Server.calculateResults a =
     Server.calculateResults
       (AssessmentData.mk (delete k (AssessmentData.satisfaction a))
                          (AssessmentData.motivation a)) ∧
   ∀ c, k = key c →
     CalculatedResults.satisfaction (Server.calculateResults a) !! k = Some 1) ∧
  (AssessmentData.motivation a !! k = Some q →
   Server.calculateResults a =
     Server.calculateResults
       (AssessmentData.mk (AssessmentData.satisfaction a)
                          (delete k (AssessmentData.motivation a))) ∧
   ∀ c, k = key c →
     CalculatedResults.motivation (Server.calculateResults a) !! k = Some 1).
Proof.
  split; intros Hk; split.
  - apply calculateResults_ext; [|done]. intros c.
    unfold read_satisfaction; simpl.
    destruct (decide (k = key c)) as [->|Hne].
    + by rewrite lookup_delete_eq, Hk, or_else_zero.
    + by rewrite lookup_delete_ne.
  - intros c ->. rewrite satisfaction_entry.
    unfold read_satisfaction. by rewrite Hk, or_else_zero.
  - apply calculateResults_ext; [done|]. intros c.
    unfold read_motivation; simpl.
    destruct (decide (k = key c)) as [->|Hne].
    + by rewrite lookup_delete_eq, Hk, or_else_zero.
    + by rewrite lookup_delete_ne.
  - intros c ->. rewrite motivation_entry.
    unfold read_motivation. by rewrite Hk, or_else_zero.
Qed.

(** ** The scorer claims on sample inputs *)

(** C1 on the input that rates only health (7 and 9): improvement 3 and
    priority 27 for health. *)
Lemma calculateResults_improvement_priority_witness :
  valid_input Sample.health_only ∧
  whole_ratings Sample.health_only ∧
  CalculatedResults.improvement (Server.calculateResults Sample.health_only)
    !! "health" = Some 3 ∧
  CalculatedResults.priority (Server.calculateResults Sample.health_only)
    !! "health" = Some 27.
Proof.
  assert (valid_input Sample.health_only) as Hvalid.
  { split; apply map_Forall_singleton; split; by apply Qle_bool_iff. }
  assert (whole_ratings Sample.health_only) as Hwhole.
  { split; apply map_Forall_singleton; reflexivity. }
  split; [exact Hvalid|]. split; [exact Hwhole|].
  destruct (calculateResults_improvement_priority
              Sample.health_only health Hvalid Hwhole) as (Hi & Hp & _).
  split; [exact Hi|exact Hp].
Defined.

(** The scenario of the specification: when only health is rated (7 and
    9), health comes first, and the rest follow in the order of
    [lifeCategories]. *)
Example health_only_ranking :
  map Ranked.category
    (CalculatedResults.priorityRanked (Server.calculateResults Sample.health_only)) =
  [health; relationships; romance; personal; fun_; community; career; finances] ∧
  map Ranked.priority
    (CalculatedResults.priorityRanked (Server.calculateResults Sample.health_only)) =
  [27; 9; 9; 9; 9; 9; 9; 9].
Proof. split; vm_compute; reflexivity. Qed.

(** C3 on the same input: health (priority 27) is at place 0, ahead of
    relationships (priority 9) at place 1; relationships and romance tie
    and keep their places 1 and 2. *)
Lemma priorityRanked_descending_stable_witness :
  Ranked.priority Sample.relationships_item <=
    Ranked.priority Sample.health_item ∧
  (1 < 2)%nat.
Proof.
  split.
  - refine (proj1 (priorityRanked_descending_stable Sample.health_only 0 1
                     Sample.health_item Sample.relationships_item _ _) _).
    + vm_compute; reflexivity.
    + vm_compute; reflexivity.
    + lia.
  - refine (proj2 (priorityRanked_descending_stable Sample.health_only 1 2
                     Sample.relationships_item Sample.romance_item _ _)
              _ 1%nat 2%nat _ _ _).
    + vm_compute; reflexivity.
    + vm_compute; reflexivity.
    + reflexivity.
    + reflexivity.
    + reflexivity.
    + lia.
Defined.

(** C7 as stated fails on the input with no rating: the result's
    satisfaction map has an entry for health, the input's has none. *)
Lemma calculateResults_raw_mappings_counterexample :
  AssessmentData.satisfaction Sample.nothing_rated !! "health" = None ∧
  CalculatedResults.satisfaction (Server.calculateResults Sample.nothing_rated)
    !! "health" = Some 1 ∧
  CalculatedResults.satisfaction (Server.calculateResults Sample.nothing_rated)
    ≠ AssessmentData.satisfaction Sample.nothing_rated.
Proof.
  assert (CalculatedResults.satisfaction
            (Server.calculateResults Sample.nothing_rated) !! "health" = Some 1)
    as H by (vm_compute; reflexivity).
  split; [reflexivity|]. split; [exact H|].
  intros Heq. rewrite Heq in H. discriminate H.
Qed.

(** C7 on the input with no rating: every category gets 1, and a key that
    is not a category gets no entry. *)
Lemma calculateResults_raw_mappings_witness :
  CalculatedResults.satisfaction (Server.calculateResults Sample.nothing_rated)
    !! "health" = Some 1 ∧
  CalculatedResults.satisfaction (Server.calculateResults Sample.nothing_rated)
    !! "wealth" = None.
Proof.
  destruct (calculateResults_raw_mappings Sample.nothing_rated) as [Hcat Hother].
  split.
  - exact (proj1 (Hcat health)).
  - refine (proj1 (Hother "wealth" _)). intros c; destruct c; discriminate.
Defined.

(** C9 on two inputs that differ in a key that is not a category. *)
Lemma calculateResults_ignores_other_keys_witness :
  Server.calculateResults Sample.with_extra_key =
  Server.calculateResults Sample.health_only.
Proof.
  apply calculateResults_ignores_other_keys;
    intros c; destruct c; vm_compute; reflexivity.
Defined.

(** C10 on the input whose health satisfaction is 0. *)
Lemma calculateResults_zero_as_absent_witness :
  Server.calculateResults Sample.health_zero =
    Server.calculateResults
      (AssessmentData.mk
         (delete "health" (AssessmentData.satisfaction Sample.health_zero))
         (AssessmentData.motivation Sample.health_zero)) ∧
  CalculatedResults.satisfaction (Server.calculateResults Sample.health_zero)
    !! "health" = Some 1.
Proof.
  destruct (calculateResults_zero_as_absent Sample.health_zero "health" 0
              (Qeq_refl 0)) as [Hs _].
  destruct Hs as [Heq Hone]; [vm_compute; reflexivity|].
  split; [exact Heq|exact (Hone health eq_refl)].
Defined.

(** * Properties of the request schema *)

Lemma rating_None_iff v : rating v = None ↔ bad_rating v.
Proof.
  split.
  - destruct v as [|b|q|t|l|o]; simpl;
      try (intros _; apply not_a_number; intros q' Hq'; discriminate Hq').
    destruct (Qle_bool 1 q) eqn:Hlo; simpl.
    + destruct (Qle_bool q 10) eqn:Hhi; [discriminate|]. intros _.
      apply above_ten, Qnot_le_lt. intros H.
      apply Qle_bool_iff in H. congruence.
    + intros _. apply below_one, Qnot_le_lt. intros H.
      apply Qle_bool_iff in H. congruence.
  - intros [j Hj|q Hq|q Hq].
    + destruct j; try reflexivity. by destruct (Hj q).
    + simpl. destruct (Qle_bool 1 q) eqn:Hlo; [|done].
      apply Qle_bool_iff in Hlo. lra.
    + simpl. destruct (Qle_bool q 10) eqn:Hhi; [|by rewrite andb_false_r].
      apply Qle_bool_iff in Hhi. lra.
Qed.

Lemma rating_Some_in_range v q : rating v = Some q → v = JS.JNum q ∧ rating_in_range q.
Proof.
  destruct v as [|b|q'|t|l|o]; simpl; try discriminate.
  destruct (Qle_bool 1 q') eqn:Hlo; simpl; [|discriminate].
  destruct (Qle_bool q' 10) eqn:Hhi; [|discriminate].
  intros [= <-]. apply Qle_bool_iff in Hlo, Hhi. by repeat split.
Qed.

Lemma record_of_ratings_None_iff j : record_of_ratings j = None ↔ bad_record j.
Proof.
  unfold record_of_ratings, bad_record. split.
  - destruct j as [[|b|q|t|l|o]|];
      try (intros _; left; intros o' Ho'; discriminate Ho').
    destruct (decide _) as [|Hnot]; [discriminate|]. intros _. right.
    apply map_not_Forall in Hnot as (k & v & Hkv & Hv); [|apply _].
    exists o, k, v. repeat split; [done|].
    apply rating_None_iff. destruct (rating v); [|done].
    destruct Hv. by eexists.
  - intros [Hj|(o & k & v & -> & Hkv & Hv)].
    + destruct j as [[|b|q|t|l|o]|]; try reflexivity. by destruct (Hj o).
    + apply rating_None_iff in Hv.
      destruct (decide _) as [Hall|]; [|done].
      destruct (Hall k v Hkv) as [q Hq]. congruence.
Qed.

(** The schema turns away exactly the bad assessment data. *)
Lemma assessmentSchema_None_iff j : assessmentSchema j = None ↔ bad_assessment j.
Proof.
  unfold assessmentSchema, bad_assessment. split.
  - destruct j as [[|b|q|t|l|o]|];
      try (intros _; left; intros o' Ho'; discriminate Ho').
    intros H. right. exists o. split; [done|].
    destruct (record_of_ratings (o !! "satisfaction")) eqn:Hs.
    + destruct (record_of_ratings (o !! "motivation")) eqn:Hm; [discriminate|].
      right. by apply record_of_ratings_None_iff.
    + left. by apply record_of_ratings_None_iff.
  - intros [Hj|(o & -> & [Hs|Hm])].
    + destruct j as [[|b|q|t|l|o]|]; try reflexivity. by destruct (Hj o).
    + apply record_of_ratings_None_iff in Hs. by rewrite Hs.
    + apply record_of_ratings_None_iff in Hm. rewrite Hm.
      by destruct (record_of_ratings (o !! "satisfaction")).
Qed.

Lemma record_of_ratings_in_range j m :
  record_of_ratings j = Some m → map_Forall (λ _ q, rating_in_range q) m.
Proof.
  unfold record_of_ratings.
  destruct j as [[|b|q|t|l|o]|]; try discriminate.
  destruct (decide _); [|discriminate]. intros [= <-] k q Hq.
  apply lookup_delete_Some in Hq as [_ Hq].
  rewrite lookup_omap in Hq.
  destruct (o !! k) as [v|]; [|discriminate]. simpl in Hq.
  by apply rating_Some_in_range in Hq as [_ ?].
Qed.

(** What the schema lets through is a valid input of the scorer. *)
Lemma assessmentSchema_valid j a : assessmentSchema j = Some a → valid_input a.
Proof.
  unfold assessmentSchema.
  destruct j as [[|b|q|t|l|o]|]; try discriminate.
  destruct (record_of_ratings (o !! "satisfaction")) eqn:Hs; [|discriminate].
  destruct (record_of_ratings (o !! "motivation")) eqn:Hm; [|discriminate].
  intros [= <-]. split; simpl; by eapply record_of_ratings_in_range.
Qed.

Lemma emailResultsSchema_bad_assessment is_email o :
  assessmentSchema (o !! "assessmentData") = None →
  emailResultsSchema is_email (JS.JObj o) = None.
Proof.
  intros H. unfold emailResultsSchema. rewrite H.
  by destruct (string_email is_email (o !! "email")),
    (string_optional (o !! "name")), (boolean_optional (o !! "updates")).
Qed.

Lemma emailResultsSchema_bad_email is_email body :
  (∀ o s, body = JS.JObj o → o !! "email" = Some (JS.JStr s) → is_email s = false) →
  emailResultsSchema is_email body = None.
Proof.
  intros H. destruct body as [|b|q|t|l|o]; try reflexivity.
  unfold emailResultsSchema, string_email.
  destruct (o !! "email") as [[|b|q|t|l|o']|] eqn:He; try reflexivity.
  by rewrite (H o t eq_refl He).
Qed.

(** * Properties of the handler *)

(** Closes a goal [¬ scores t] or [¬ sends t] on an explicit trace. *)
Ltac no_such_event :=
  let H := fresh "H" in
  unfold scores, sends; intros H;
  repeat match type of H with ∃ _, _ => destruct H as [? H] end;
  repeat (apply elem_of_cons in H as [H|H]; [discriminate H|]);
  by apply elem_of_nil in H.

Section Handler_paths.
Variable is_email : string → bool.
Variable sendMail_resolves : Server.Transport → Server.MailOptions → bool.
Variable env : gmap string string.
Variable body : JS.json.

(** The three paths through the handler. *)
Lemma email_results_unconfigured :
  JS.truthy_string (env !! "GMAIL_USER") = false ∨
  JS.truthy_string (env !! "GMAIL_APP_PASSWORD") = false →
  Server.email_results is_email sendMail_resolves env body =
  ([Server.Respond Server.not_configured], inr tt).
Proof.
  intros H. unfold Server.email_results.
  assert (negb (JS.truthy_string (env !! "GMAIL_USER"))
          || negb (JS.truthy_string (env !! "GMAIL_APP_PASSWORD")) = true) as ->.
  { destruct H as [-> | ->]; simpl; [done|apply orb_true_r]. }
  reflexivity.
Qed.

Lemma email_results_rejected :
  JS.truthy_string (env !! "GMAIL_USER") = true →
  JS.truthy_string (env !! "GMAIL_APP_PASSWORD") = true →
  emailResultsSchema is_email body = None →
  Server.email_results is_email sendMail_resolves env body =
  ([Server.Call_console_error Server.ZodError;
    Server.Respond Server.failed_to_send], inr tt).
Proof.
  intros Hu Hp Hparse. unfold Server.email_results, Server.parse.
  rewrite Hu, Hp, Hparse. reflexivity.
Qed.

Lemma email_results_accepted validatedData :
  JS.truthy_string (env !! "GMAIL_USER") = true →
  JS.truthy_string (env !! "GMAIL_APP_PASSWORD") = true →
  emailResultsSchema is_email body = Some validatedData →
  ∃ transporter mail,
    Server.email_results is_email sendMail_resolves env body =
    (Server.Call_calculateResults (EmailResultsRequest.assessmentData validatedData)
     :: Server.Call_createTransport transporter
     :: Server.Call_sendMail transporter mail
     :: (if sendMail_resolves transporter mail
         then [Server.Respond Server.results_sent]
         else [Server.Call_console_error Server.SendMailError;
               Server.Respond Server.failed_to_send]),
     inr tt).
Proof.
  intros Hu Hp Hparse. unfold Server.email_results, Server.parse, Server.sendMail.
  rewrite Hu, Hp, Hparse. simpl.
  match goal with
  | |- context [sendMail_resolves ?t ?m] =>
      exists t, m; by destruct (sendMail_resolves t m)
  end.
Qed.

(** A body the schema turns away is neither scored nor mailed, whatever
    the configuration. *)
Lemma email_results_rejected_quiet :
  emailResultsSchema is_email body = None →
  let trace := (Server.email_results is_email sendMail_resolves env body).1 in
  ¬ scores trace ∧ ¬ sends trace.
Proof.
  intros Hparse.
  destruct (JS.truthy_string (env !! "GMAIL_USER")) eqn:Hu;
    [destruct (JS.truthy_string (env !! "GMAIL_APP_PASSWORD")) eqn:Hp|].
  - rewrite email_results_rejected by done. split; no_such_event.
  - rewrite email_results_unconfigured by auto. split; no_such_event.
  - rewrite email_results_unconfigured by auto. split; no_such_event.
Qed.

End Handler_paths.

(** * The claims on the endpoint *)

(** C4, as the code has it.  The schema turns away assessment data of a
    malformed shape (not an object, or [satisfaction] or [motivation]
    missing or not an object) and assessment data with a rating that is
    not a number, is below 1 or is above 10.  A request body with such
    assessment data fails validation, and is neither scored nor mailed.
    (Whether a rating is a whole number is not tested.) *)
Theorem assessmentSchema_rejects_bad (is_email : string → bool)
    (sendMail_resolves : Server.Transport → Server.MailOptions → bool)
    (env : gmap string string) (o : gmap string JS.json)
    (Hbad : bad_assessment (o !! "assessmentData")) :
  let trace :=
    (Server.email_results is_email sendMail_resolves env (JS.JObj o)).1 in
  assessmentSchema (o !! "assessmentData") = None ∧
  emailResultsSchema is_email (JS.JObj o) = None ∧
  ¬ scores trace ∧ ¬ sends trace.
Proof.
  apply assessmentSchema_None_iff in Hbad.
  pose proof (emailResultsSchema_bad_assessment is_email o Hbad) as Hparse.
  split; [done|]. split; [done|].
  by apply email_results_rejected_quiet.
Qed.

(** C4 on a request whose health satisfaction is 11. *)
Lemma assessmentSchema_rejects_bad_witness :
  emailResultsSchema Sample.is_email Sample.eleven_request = None ∧
  ¬ scores (Server.email_results Sample.is_email Sample.always_resolves
              Sample.configured Sample.eleven_request).1.
Proof.
  assert (bad_assessment
            (Sample.fields (JS.JStr "user@example.com") {[ "health" := JS.JNum 11 ]}
               !! "assessmentData")) as Hbad.
  { right. eexists. split; [vm_compute; reflexivity|].
    left. right. exists {[ "health" := JS.JNum 11 ]}, "health", (JS.JNum 11).
    split; [vm_compute; reflexivity|].
    split; [vm_compute; reflexivity|].
    apply above_ten. reflexivity. }
  destruct (assessmentSchema_rejects_bad Sample.is_email Sample.always_resolves
              Sample.configured _ Hbad) as (_ & Hparse & Hscore & _).
  split; [exact Hparse|exact Hscore].
Defined.

(** C4 as stated fails on a request whose health satisfaction is 5.5: the
    rating is not a whole number, the schema accepts it, and the handler
    scores it. *)
Lemma assessmentSchema_rejects_bad_counterexample :
  is_integer (11 # 2) = false ∧
  assessmentSchema (Some (JS.JObj (Sample.assessment Sample.half_rating))) =
    Some Sample.half_input ∧
  emailResultsSchema Sample.is_email Sample.half_request =
    Some (EmailResultsRequest.mk "user@example.com" None None Sample.half_input) ∧
  scores (Server.email_results Sample.is_email Sample.always_resolves
            Sample.configured Sample.half_request).1.
Proof.
  split; [reflexivity|].
  split; [vm_compute; reflexivity|].
  split; [vm_compute; reflexivity|].
  exists Sample.half_input. vm_compute. left.
Qed.

(** C5. When either secret is absent from the environment the handler
    answers with the "not configured" response, which differs from its
    two other responses, and does nothing else: no mail is sent. *)
Theorem email_results_not_configured (is_email : string → bool)
    (sendMail_resolves : Server.Transport → Server.MailOptions → bool)
    (env : gmap string string) (body : JS.json)
    (Hmissing : env !! "GMAIL_USER" = None ∨
                env !! "GMAIL_APP_PASSWORD" = None) :
  let run := Server.email_results is_email sendMail_resolves env body in
  run = ([Server.Respond Server.not_configured], inr tt) ∧
  responses run.1 = [Server.not_configured] ∧
  Server.not_configured ≠ Server.failed_to_send ∧
  Server.not_configured ≠ Server.results_sent ∧
  ¬ sends run.1 ∧ ¬ scores run.1.
Proof.
  intros run.
  assert (run = ([Server.Respond Server.not_configured], inr tt)) as ->.
  { apply email_results_unconfigured.
    destruct Hmissing as [-> | ->]; auto. }
  repeat split; try done; no_such_event.
Qed.

(** C5 on an environment without the password. *)
Lemma email_results_not_configured_witness :
  Server.email_results Sample.is_email Sample.always_resolves
    Sample.no_password Sample.half_request =
  ([Server.Respond Server.not_configured], inr tt).
Proof.
  refine (proj1 (email_results_not_configured Sample.is_email
                   Sample.always_resolves Sample.no_password
                   Sample.half_request _)).
  right. vm_compute; reflexivity.
Defined.

(** C6, as the code has it.  When both secrets are configured, a request
    whose email field is not an address zod accepts gets the failure
    response of the handler (status 500, success false, the message it
    also gives when sending fails); the error is logged, nothing is
    scored and no mail is sent. *)
Theorem email_results_invalid_email (is_email : string → bool)
    (sendMail_resolves : Server.Transport → Server.MailOptions → bool)
    (env : gmap string string) (body : JS.json)
    (Huser : JS.truthy_string (env !! "GMAIL_USER") = true)
    (Hpass : JS.truthy_string (env !! "GMAIL_APP_PASSWORD") = true)
    (Hemail : ∀ o s, body = JS.JObj o → o !! "email" = Some (JS.JStr s) →
                     is_email s = false) :
  let run := Server.email_results is_email sendMail_resolves env body in
  run = ([Server.Call_console_error Server.ZodError;
          Server.Respond Server.failed_to_send], inr tt) ∧
  responses run.1 = [Server.failed_to_send] ∧
  ¬ scores run.1 ∧ ¬ sends run.1.
Proof.
  intros run.
  assert (run = ([Server.Call_console_error Server.ZodError;
                  Server.Respond Server.failed_to_send], inr tt)) as ->.
  { apply email_results_rejected; [done..|].
    by apply emailResultsSchema_bad_email. }
  repeat split; try done; no_such_event.
Qed.

(** C6 on a configured server and a request with a bad address. *)
Lemma email_results_invalid_email_witness :
  responses (Server.email_results Sample.is_email Sample.always_resolves
               Sample.configured Sample.bad_email_request).1 =
  [Server.failed_to_send].
Proof.
  refine (proj1 (proj2 (email_results_invalid_email Sample.is_email
                          Sample.always_resolves Sample.configured
                          Sample.bad_email_request _ _ _))).
  - vm_compute; reflexivity.
  - vm_compute; reflexivity.
  - intros o s [= <-] Hs. vm_compute in Hs. injection Hs as <-. reflexivity.
Defined.

(** C6 as stated fails when a secret is missing: the request with a bad
    address is answered with the "not configured" response, which is not
    the response given on a validation failure. *)
Lemma email_results_invalid_email_counterexample :
  emailResultsSchema Sample.is_email Sample.bad_email_request = None ∧
  responses (Server.email_results Sample.is_email Sample.always_resolves
               Sample.no_password Sample.bad_email_request).1 =
    [Server.not_configured] ∧
  Server.not_configured ≠ Server.failed_to_send.
Proof.
  split; [vm_compute; reflexivity|].
  split; [vm_compute; reflexivity|].
  discriminate.
Qed.

(** * Further properties of the scorer *)

Lemma read_satisfaction_in_range a c :
  valid_input a → rating_in_range (read_satisfaction a c).
Proof.
  intros [Hs _]. unfold read_satisfaction.
  rewrite or_else_in_range by (intros q Hq; exact (Hs _ _ Hq)).
  destruct (AssessmentData.satisfaction a !! key c) as [q|] eqn:E; simpl.
  - exact (Hs _ _ E).
  - split; by apply Qle_bool_iff.
Qed.

Lemma read_motivation_in_range a c :
  valid_input a → rating_in_range (read_motivation a c).
Proof.
  intros [_ Hm]. unfold read_motivation.
  rewrite or_else_in_range by (intros q Hq; exact (Hm _ _ Hq)).
  destruct (AssessmentData.motivation a !! key c) as [q|] eqn:E; simpl.
  - exact (Hm _ _ E).
  - split; by apply Qle_bool_iff.
Qed.

(** The ranked records are the eight records of the categories. *)
Lemma elem_of_priorityRanked a item :
  item ∈ CalculatedResults.priorityRanked (Server.calculateResults a) ↔
  ∃ c, item =
    Ranked.mk c (lifeCategoryLabels c)
      (read_satisfaction a c) (read_motivation a c)
      (10 - read_satisfaction a c)
      ((10 - read_satisfaction a c) * read_motivation a c).
Proof.
  rewrite (elem_of_Permutation_proper _ _ _ (priorityRanked_perm a)).
  rewrite list_elem_of_fmap. split.
  - intros (c & -> & _). by exists c.
  - intros (c & ->). exists c. split; [done|apply elem_of_lifeCategories].
Qed.

Lemma priority_bounds (s m : Q) :
  rating_in_range s → rating_in_range m →
  0 <= 10 - s ∧ 10 - s <= 9 ∧ 0 <= (10 - s) * m ∧ (10 - s) * m <= 90.
Proof.
  intros [Hs1 Hs2] [Hm1 Hm2].
  split; [lra|]. split; [lra|]. split.
  - apply Qmult_le_0_compat; lra.
  - apply Qle_trans with (9 * m).
    + apply Qmult_le_compat_r; lra.
    + lra.
Qed.

(** X1. For an input whose ratings lie in [1, 10], every ranked record
    has satisfaction and motivation in [1, 10], improvement in [0, 9] and
    priority in [0, 90]. *)
Theorem ranked_within_bounds (a : AssessmentData.t) (item : Ranked.t)
    (Hvalid : valid_input a)
    (Hitem : item ∈ CalculatedResults.priorityRanked (Server.calculateResults a)) :
  (1 <= Ranked.satisfaction item ∧ Ranked.satisfaction item <= 10) ∧
  (1 <= Ranked.motivation item ∧ Ranked.motivation item <= 10) ∧
  (0 <= Ranked.improvement item ∧ Ranked.improvement item <= 9) ∧
  (0 <= Ranked.priority item ∧ Ranked.priority item <= 90).
Proof.
  apply elem_of_priorityRanked in Hitem as (c & ->). simpl.
  pose proof (read_satisfaction_in_range a c Hvalid) as Hs.
  pose proof (read_motivation_in_range a c Hvalid) as Hm.
  destruct (priority_bounds _ _ Hs Hm) as (? & ? & ? & ?).
  by repeat split; try apply Hs; try apply Hm.
Qed.

Lemma ranked_within_bounds_witness :
  0 <= Ranked.priority Sample.health_item ∧
  Ranked.priority Sample.health_item <= 90.
Proof.
  refine (proj2 (proj2 (proj2
    (ranked_within_bounds Sample.health_only Sample.health_item _ _)))).
  - split; apply map_Forall_singleton; split; by apply Qle_bool_iff.
  - vm_compute. left.
Defined.

(** X2. For every input, each ranked record agrees with the four result
    maps at its category and carries the label of its category.  When the
    ratings are whole numbers in [1, 10], the record also satisfies
    improvement = 10 - satisfaction and
    priority = (10 - satisfaction) * motivation. *)
Theorem ranked_matches_maps (a : AssessmentData.t) (item : Ranked.t)
    (Hitem : item ∈ CalculatedResults.priorityRanked (Server.calculateResults a)) :
  let results := Server.calculateResults a in
  let k := key (Ranked.category item) in
  CalculatedResults.satisfaction results !! k = Some (Ranked.satisfaction item) ∧
  CalculatedResults.motivation results !! k = Some (Ranked.motivation item) ∧
  CalculatedResults.improvement results !! k = Some (Ranked.improvement item) ∧
  CalculatedResults.priority results !! k = Some (Ranked.priority item) ∧
  Ranked.label item = lifeCategoryLabels (Ranked.category item) ∧
  (valid_input a → whole_ratings a →
   Ranked.improvement item = 10 - Ranked.satisfaction item ∧
   Ranked.priority item =
     (10 - Ranked.satisfaction item) * Ranked.motivation item).
Proof.
  apply elem_of_priorityRanked in Hitem as (c & ->). simpl.
  split; [apply satisfaction_entry|].
  split; [apply motivation_entry|].
  split; [apply improvement_entry|].
  split; [apply priority_entry|]. done.
Qed.

Lemma ranked_matches_maps_witness :
  CalculatedResults.priority (Server.calculateResults Sample.health_only)
    !! "health" = Some 27 ∧
  Ranked.priority Sample.health_item =
    (10 - Ranked.satisfaction Sample.health_item)
    * Ranked.motivation Sample.health_item.
Proof.
  assert (Sample.health_item ∈
            CalculatedResults.priorityRanked
              (Server.calculateResults Sample.health_only)) as Hitem.
  { vm_compute. left. }
  destruct (ranked_matches_maps Sample.health_only Sample.health_item Hitem)
    as (_ & _ & _ & Hp & _ & Harith).
  split; [exact Hp|].
  refine (proj2 (Harith _ _)).
  - split; apply map_Forall_singleton; split; by apply Qle_bool_iff.
  - split; apply map_Forall_singleton; reflexivity.
Defined.

Lemma priorityRanked_length a :
  length (CalculatedResults.priorityRanked (Server.calculateResults a)) = 8%nat.
Proof. by rewrite (Permutation_length (priorityRanked_perm a)). Qed.

(** X3. The ranking is never empty; its first record has the greatest
    priority of all, so the label the page shows as the highest priority
    is always defined. *)
Theorem first_ranked_is_maximal (a : AssessmentData.t) :
  let results := Server.calculateResults a in
  ∃ top,
    CalculatedResults.priorityRanked results !! 0%nat = Some top ∧
    Page.highestPriority results = Some (Ranked.label top) ∧
    ∀ item, item ∈ CalculatedResults.priorityRanked results →
            Ranked.priority item <= Ranked.priority top.
Proof.
  intros results. unfold Page.highestPriority.
  pose proof (priorityRanked_length a) as Hlen.
  pose proof (priorityRanked_sorted a) as Hsorted.
  fold results in Hlen, Hsorted.
  destruct (CalculatedResults.priorityRanked results) as [|top l];
    [discriminate Hlen|].
  exists top. split; [done|]. split; [done|].
  intros item Hitem. apply elem_of_cons in Hitem as [->|Hitem]; [lra|].
  apply StronglySorted_inv in Hsorted as [_ Hall].
  rewrite Forall_forall in Hall. by destruct (Hall item Hitem).
Qed.

(** X4. The three records the e-mail and the page list as priority areas
    are the first three of the ranking: three records of three different
    categories, and no record left out has a greater priority than a
    listed one. *)
Theorem top_three_are_highest (a : AssessmentData.t) (name : option string) :
  let results := Server.calculateResults a in
  let top := Server.topPriorities (Server.generateEmailHTML results name) in
  top = Page.priorityAreas results ∧
  length top = 3%nat ∧
  NoDup (map Ranked.category top) ∧
  ∀ x y, x ∈ top → y ∈ CalculatedResults.priorityRanked results → y ∉ top →
         Ranked.priority y <= Ranked.priority x.
Proof.
  intros results top.
  pose proof (priorityRanked_length a
              : length (CalculatedResults.priorityRanked results) = 8%nat) as Hlen.
  pose proof (priorityRanked_sorted a
              : StronglySorted ranks_before
                  (CalculatedResults.priorityRanked results)) as Hsorted.
  pose proof (priorityRanked_categories a
              : map Ranked.category (CalculatedResults.priorityRanked results)
                ≡ₚ lifeCategories) as Hcats.
  change top with (take 3 (CalculatedResults.priorityRanked results)).
  unfold Page.priorityAreas. clear top.
  generalize dependent (CalculatedResults.priorityRanked results).
  clear results. intros ranked Hlen Hsorted Hcats.
  split; [done|]. split; [rewrite length_take; lia|]. split.
  - apply (sublist_NoDup _ (map Ranked.category ranked)).
    + apply (NoDup_Permutation_proper _ _ Hcats), NoDup_lifeCategories.
    + apply (fmap_sublist Ranked.category), sublist_take.
  - intros x y Hx Hy Hny.
    apply elem_of_take in Hx as (i & Hi & Hi3).
    apply list_elem_of_lookup in Hy as (j & Hj).
    destruct (decide (j < 3)%nat) as [Hj3|Hj3].
    + destruct Hny. apply elem_of_take. by exists j.
    + assert (i < j)%nat as Hij by lia.
      by destruct (StronglySorted_lookup_lt _ _ Hsorted i j x y Hij Hi Hj).
Qed.

Lemma key_or_not (k : string) : (∃ c, k = key c) ∨ (∀ c, key c ≠ k).
Proof.
  destruct (decide (k ∈ map key lifeCategories)) as [Hin|Hout].
  - left. apply list_elem_of_fmap in Hin as (c & -> & _). by exists c.
  - right. intros c <-. apply Hout.
    apply list_elem_of_fmap. exists c. split; [done|apply elem_of_lifeCategories].
Qed.

(** Two results with the same defaulted ratings have the same maps. *)
Lemma entries_ext a1 a2 k :
  (∀ c, k = key c →
        read_satisfaction a1 c = read_satisfaction a2 c ∧
        read_motivation a1 c = read_motivation a2 c) →
  entries (Server.calculateResults a1) k = entries (Server.calculateResults a2) k.
Proof.
  intros H. destruct (key_or_not k) as [[c ->]|Hk].
  - rewrite !calculateResults_entries. destruct (H c eq_refl) as [-> ->]. done.
  - by rewrite !calculateResults_entries_other.
Qed.

(** X5. More motivation never lowers the priority of a category, and more
    satisfaction never raises it: for two valid inputs where, for a
    category, the second has no higher satisfaction and no lower
    motivation (absent ratings counting as 1), the priority of the
    category in the second result is at least that in the first. *)
Theorem priority_monotone (a1 a2 : AssessmentData.t) (c : LifeCategory)
    (Hvalid1 : valid_input a1) (Hvalid2 : valid_input a2)
    (Hs : default 1 (AssessmentData.satisfaction a2 !! key c) <=
          default 1 (AssessmentData.satisfaction a1 !! key c))
    (Hm : default 1 (AssessmentData.motivation a1 !! key c) <=
          default 1 (AssessmentData.motivation a2 !! key c)) :
  ∃ p1 p2,
    CalculatedResults.priority (Server.calculateResults a1) !! key c = Some p1 ∧
    CalculatedResults.priority (Server.calculateResults a2) !! key c = Some p2 ∧
    p1 <= p2.
Proof.
  eexists _, _. split; [apply priority_entry|]. split; [apply priority_entry|].
  pose proof (read_satisfaction_in_range a1 c Hvalid1) as [? ?].
  pose proof (read_satisfaction_in_range a2 c Hvalid2) as [? ?].
  pose proof (read_motivation_in_range a1 c Hvalid1) as [? ?].
  pose proof (read_motivation_in_range a2 c Hvalid2) as [? ?].
  assert (read_satisfaction a2 c <= read_satisfaction a1 c) as Hs'.
  { unfold read_satisfaction.
    rewrite !or_else_in_range; [done|..];
      intros q Hq; [exact (proj1 Hvalid1 _ _ Hq)|exact (proj1 Hvalid2 _ _ Hq)]. }
  assert (read_motivation a1 c <= read_motivation a2 c) as Hm'.
  { unfold read_motivation.
    rewrite !or_else_in_range; [done|..];
      intros q Hq; [exact (proj2 Hvalid2 _ _ Hq)|exact (proj2 Hvalid1 _ _ Hq)]. }
  apply Qle_trans with ((10 - read_satisfaction a2 c) * read_motivation a1 c).
  - apply Qmult_le_compat_r; lra.
  - rewrite !(Qmult_comm (10 - read_satisfaction a2 c)).
    apply Qmult_le_compat_r; lra.
Qed.

Lemma priority_monotone_witness :
  ∃ p1 p2,
    CalculatedResults.priority (Server.calculateResults Sample.health_only)
      !! "health" = Some p1 ∧
    CalculatedResults.priority
      (Server.calculateResults
         (AssessmentData.mk {[ "health" := 3 ]} {[ "health" := 10 ]}))
      !! "health" = Some p2 ∧
    p1 <= p2.
Proof.
  refine (priority_monotone Sample.health_only
            (AssessmentData.mk {[ "health" := 3 ]} {[ "health" := 10 ]}) health
            _ _ _ _).
  - split; apply map_Forall_singleton; split; by apply Qle_bool_iff.
  - split; apply map_Forall_singleton; split; by apply Qle_bool_iff.
  - apply Qle_bool_iff. vm_compute; reflexivity.
  - apply Qle_bool_iff. vm_compute; reflexivity.
Defined.

(** * Properties of the page component *)

(** X6. [updateAssessmentData] writes one rating and nothing else: the
    rating of the given type and category becomes the value, every other
    rating of either type is as before. *)
Theorem updateAssessmentData_lookup (c : LifeCategory) (t : Page.RatingType)
    (value : Q) (prev : AssessmentData.t) :
  let data := Page.updateAssessmentData c t value prev in
  Page.ratings t data !! key c = Some value ∧
  ∀ t' k, (t', k) ≠ (t, key c) →
          Page.ratings t' data !! k = Page.ratings t' prev !! k.
Proof.
  split.
  - destruct t; simpl; apply lookup_insert_eq.
  - intros t' k Hne. destruct t, t'; simpl; try done;
      apply lookup_insert_ne; congruence.
Qed.

(** X7. Of two updates of the same rating the later one wins, and
    updates of different ratings can be made in either order. *)
Theorem updateAssessmentData_order (c1 c2 : LifeCategory)
    (t1 t2 : Page.RatingType) (v1 v2 : Q) (prev : AssessmentData.t) :
  Page.updateAssessmentData c1 t1 v2 (Page.updateAssessmentData c1 t1 v1 prev) =
    Page.updateAssessmentData c1 t1 v2 prev ∧
  ((c1, t1) ≠ (c2, t2) →
   Page.updateAssessmentData c1 t1 v1 (Page.updateAssessmentData c2 t2 v2 prev) =
   Page.updateAssessmentData c2 t2 v2 (Page.updateAssessmentData c1 t1 v1 prev)).
Proof.
  split.
  - destruct t1; simpl; by rewrite insert_insert_eq.
  - intros Hne. destruct t1, t2; simpl; try done.
    + f_equal. apply insert_insert_ne. intros Hk. apply key_inj in Hk. congruence.
    + f_equal. apply insert_insert_ne. intros Hk. apply key_inj in Hk. congruence.
Qed.

Lemma updateAssessmentData_order_witness :
  Page.updateAssessmentData health Page.t_satisfaction 7
    (Page.updateAssessmentData health Page.t_motivation 9 Sample.nothing_rated) =
  Page.updateAssessmentData health Page.t_motivation 9
    (Page.updateAssessmentData health Page.t_satisfaction 7 Sample.nothing_rated).
Proof.
  refine (proj2 (updateAssessmentData_order health health Page.t_satisfaction
                   Page.t_motivation 7 9 Sample.nothing_rated) _).
  discriminate.
Defined.

(** X8. Scoring after a slider update: when a slider sets the
    satisfaction of a category to a value (a whole number from 1 to 10),
    the result records that value and improvement 10 - value for the
    category, and the entries of every other category, in all four maps,
    are those of the result before the update. *)
Theorem update_satisfaction_then_score (c : LifeCategory) (value : Q)
    (prev : AssessmentData.t) (Hvalue : Page.slider_value value) :
  let data := Page.updateAssessmentData c Page.t_satisfaction value prev in
  CalculatedResults.satisfaction (Client.calculateResults data) !! key c =
    Some value ∧
  CalculatedResults.improvement (Client.calculateResults data) !! key c =
    Some (10 - value) ∧
  ∀ c', c' ≠ c →
    entries (Client.calculateResults data) (key c') =
    entries (Client.calculateResults prev) (key c').
Proof.
  intros data. change Client.calculateResults with Server.calculateResults.
  assert (read_satisfaction data c = value) as Hread.
  { unfold read_satisfaction, data; simpl.
    rewrite lookup_insert_eq. apply or_else_nonzero.
    destruct Hvalue as (n & [Hlo _] & ->). intros Hn.
    unfold Qeq in Hn. simpl in Hn. lia. }
  split; [by rewrite satisfaction_entry, Hread|].
  split; [by rewrite improvement_entry, Hread|].
  intros c' Hne. apply entries_ext. intros c'' Hk. apply key_inj in Hk as <-.
  unfold read_satisfaction, read_motivation, data; simpl.
  rewrite lookup_insert_ne; [done|].
  intros Hk. apply key_inj in Hk. congruence.
Qed.

Lemma update_satisfaction_then_score_witness :
  CalculatedResults.improvement
    (Client.calculateResults
       (Page.updateAssessmentData health Page.t_satisfaction 7
          Sample.nothing_rated)) !! "health" = Some 3.
Proof.
  refine (proj1 (proj2 (update_satisfaction_then_score health 7
                          Sample.nothing_rated _))).
  exists 7%Z. split; [lia|reflexivity].
Defined.

(** X9. A slider that was never moved shows 5 while the scorer counts the
    rating as 1; once a rating other than 0 is stored, the slider shows it
    and the scorer uses it. *)
Theorem slider_shows_5_scorer_uses_1 (data : AssessmentData.t)
    (c : LifeCategory) :
  let results := Client.calculateResults data in
  (AssessmentData.satisfaction data !! key c = None →
   Page.sliderValue data Page.t_satisfaction c = 5 ∧
   CalculatedResults.satisfaction results !! key c = Some 1) ∧
  (AssessmentData.motivation data !! key c = None →
   Page.sliderValue data Page.t_motivation c = 5 ∧
   CalculatedResults.motivation results !! key c = Some 1) ∧
  (∀ q, AssessmentData.satisfaction data !! key c = Some q → ¬ q == 0 →
        Page.sliderValue data Page.t_satisfaction c = q ∧
        CalculatedResults.satisfaction results !! key c = Some q) ∧
  (∀ q, AssessmentData.motivation data !! key c = Some q → ¬ q == 0 →
        Page.sliderValue data Page.t_motivation c = q ∧
        CalculatedResults.motivation results !! key c = Some q).
Proof.
  intros results.
  assert (CalculatedResults.satisfaction results !! key c =
          Some (read_satisfaction data c)) as Hs by apply satisfaction_entry.
  assert (CalculatedResults.motivation results !! key c =
          Some (read_motivation data c)) as Hm by apply motivation_entry.
  rewrite Hs, Hm. clear Hs Hm results.
  unfold Page.sliderValue, Page.ratings, read_satisfaction, read_motivation.
  split; [by intros ->|]. split; [by intros ->|].
  split; intros q -> Hq; by rewrite !or_else_nonzero.
Qed.

Lemma slider_shows_5_scorer_uses_1_witness :
  Page.sliderValue Sample.nothing_rated Page.t_satisfaction health = 5 ∧
  CalculatedResults.satisfaction (Client.calculateResults Sample.nothing_rated)
    !! "health" = Some 1.
Proof.
  refine (proj1 (slider_shows_5_scorer_uses_1 Sample.nothing_rated health) _).
  reflexivity.
Defined.

Lemma lifeCategoryLabels_inj c1 c2 :
  lifeCategoryLabels c1 = lifeCategoryLabels c2 → c1 = c2.
Proof. destruct c1, c2; simpl; intros H; first [ reflexivity | discriminate H ]. Qed.

Lemma list_lookup_map {A B} (f : A → B) (l : list A) (i : nat) :
  map f l !! i = f <$> l !! i.
Proof.
  revert i. induction l as [|x l IH]; intros [|i]; simpl; done.
Qed.

(** X10. The radar chart has no point before there are results; with
    results it has one point per category, in the order of
    [lifeCategories], labelled with the label of the category, with full
    mark 10 and the scored satisfaction (the stored rating, or 1 where
    none or 0 is stored), which for valid ratings lies in [1, 10]. *)
Theorem getRadarData_points (a : AssessmentData.t) :
  let points := Page.getRadarData (Some (Client.calculateResults a)) in
  Page.getRadarData None = [] ∧
  length points = 8%nat ∧
  ∀ i c, lifeCategories !! i = Some c →
    ∃ p, points !! i = Some p ∧
         Page.category p = lifeCategoryLabels c ∧
         Page.fullMark p = 10 ∧
         Page.satisfaction p =
           JS.or_else (AssessmentData.satisfaction a !! key c) 1 ∧
         (valid_input a →
          1 <= Page.satisfaction p ∧ Page.satisfaction p <= 10).
Proof.
  intros points.
  assert (∀ c, CalculatedResults.satisfaction (Client.calculateResults a) !!! key c
               = read_satisfaction a c) as Hs.
  { intros c. apply lookup_total_correct, satisfaction_entry. }
  unfold points, Page.getRadarData. clear points.
  generalize dependent (Client.calculateResults a). intros r Hs.
  split; [done|]. split; [by rewrite length_map|].
  intros i c Hi. eexists. split.
  - by rewrite list_lookup_map, Hi.
  - simpl. split; [done|]. split; [done|]. split; [apply Hs|].
    intros Hvalid. rewrite Hs. apply (read_satisfaction_in_range a c Hvalid).
Qed.

Lemma getRadarData_points_witness :
  ∃ p, Page.getRadarData (Some (Client.calculateResults Sample.health_only))
         !! 0%nat = Some p ∧
       Page.category p = "Health & Fitness" ∧
       Page.fullMark p = 10 ∧
       Page.satisfaction p = 7.
Proof.
  destruct (proj2 (proj2 (getRadarData_points Sample.health_only))
              0%nat health eq_refl) as (p & Hp & Hc & Hf & Hs & _).
  exists p. split; [exact Hp|]. split; [exact Hc|]. split; [exact Hf|exact Hs].
Defined.

Lemma elem_of_strongestLabels a x :
  x ∈ Page.strongestLabels (Server.calculateResults a) ↔
  ∃ c, x = lifeCategoryLabels c ∧ 7 <= read_satisfaction a c.
Proof.
  unfold Page.strongestLabels.
  rewrite list_elem_of_In, in_map_iff. split.
  - intros (item & <- & Hitem).
    apply filter_In in Hitem as [Hitem Hsat].
    apply list_elem_of_In, elem_of_priorityRanked in Hitem as (c & ->).
    simpl in *. exists c. split; [done|]. by apply Qle_bool_iff.
  - intros (c & -> & Hsat).
    eexists (Ranked.mk c (lifeCategoryLabels c) _ _ _ _). split; [done|].
    apply filter_In. split.
    + apply list_elem_of_In, elem_of_priorityRanked. by exists c.
    + simpl. by apply Qle_bool_iff.
Qed.

(** X11. The strongest areas are the categories whose scored satisfaction
    is at least 7: the label of a category is listed exactly when the
    stored rating, or 1 where none or 0 is stored, is at least 7. *)
Theorem strongestLabels_iff (a : AssessmentData.t) (c : LifeCategory) :
  lifeCategoryLabels c ∈ Page.strongestLabels (Client.calculateResults a) ↔
  7 <= JS.or_else (AssessmentData.satisfaction a !! key c) 1.
Proof.
  change Client.calculateResults with Server.calculateResults.
  rewrite elem_of_strongestLabels. split.
  - intros (c' & Hc & Hsat). apply lifeCategoryLabels_inj in Hc. by subst.
  - intros Hsat. by exists c.
Qed.

Lemma concat_labels_not_fallback (c : LifeCategory) (l : list string) :
  let s := String.concat ", " (lifeCategoryLabels c :: l) in
  s ≠ EmptyString ∧ s ≠ "No strong areas identified yet".
Proof. destruct c, l; simpl; split; discriminate. Qed.

(** X12. The page shows "No strong areas identified yet" exactly when no
    category has a scored satisfaction of 7 or more. *)
Theorem strongestAreasText_fallback (a : AssessmentData.t) :
  Page.strongestAreasText (Some (Client.calculateResults a)) =
    "No strong areas identified yet" ↔
  ∀ c, JS.or_else (AssessmentData.satisfaction a !! key c) 1 < 7.
Proof.
  change Client.calculateResults with Server.calculateResults.
  unfold Page.strongestAreasText, Page.strongestAreas.
  pose proof (elem_of_strongestLabels a) as Helem.
  generalize dependent (Page.strongestLabels (Server.calculateResults a)).
  intros labels Helem. split.
  - intros Htext c. apply Qnot_le_lt. intros Hsat.
    assert (lifeCategoryLabels c ∈ labels) as Hin by (apply Helem; by exists c).
    destruct labels as [|x labels]; [by apply elem_of_nil in Hin|].
    assert (x ∈ x :: labels) as Hx by left.
    apply Helem in Hx as (c' & -> & _).
    destruct (concat_labels_not_fallback c' labels) as [Hne Hnf].
    destruct (String.eqb _ _) eqn:E; [apply String.eqb_eq in E|]; done.
  - intros Hall. destruct labels as [|x labels]; [done|].
    assert (x ∈ x :: labels) as Hx by left.
    apply Helem in Hx as (c & -> & Hsat).
    specialize (Hall c). unfold read_satisfaction in Hsat. lra.
Qed.

(** ** The page as a state machine *)

Lemma slider_value_in_range q : Page.slider_value q → rating_in_range q.
Proof.
  intros (n & [Hlo Hhi] & ->). split.
  - change 1 with (inject_Z 1). by rewrite <- Zle_Qle.
  - change 10 with (inject_Z 10). by rewrite <- Zle_Qle.
Qed.

Lemma results_section_or_not (s : Page.CurrentSection) :
  s = Page.s_results ∨ s ≠ Page.s_results.
Proof. destruct s; first [ by left | by right ]. Qed.

Lemma initial_invariant : Page.invariant Page.initial.
Proof.
  split; [|split]; simpl; try done.
  intros t k q Hq. destruct t; simpl in Hq; by rewrite lookup_empty in Hq.
Qed.

Lemma update_invariant_ratings c t value data :
  Page.slider_value value →
  (∀ t' k q, Page.ratings t' data !! k = Some q →
             (∃ c', k = key c') ∧ Page.slider_value q) →
  ∀ t' k q, Page.ratings t' (Page.updateAssessmentData c t value data) !! k = Some q →
            (∃ c', k = key c') ∧ Page.slider_value q.
Proof.
  intros Hvalue Hdata t' k q Hq.
  assert (Page.ratings t' data !! k = Some q ∨ (k = key c ∧ q = value))
    as [Hold|[-> ->]].
  { destruct t, t'; simpl in Hq; try (by left);
      (destruct (decide (k = key c)) as [->|Hk];
       [rewrite lookup_insert_eq in Hq; right; by injection Hq as <-
       |rewrite lookup_insert_ne in Hq by done; by left]). }
  - by apply (Hdata t').
  - split; [by exists c|done].
Qed.

Lemma step_invariant st act st' :
  Page.invariant st → Page.slider_action act →
  Page.step st act = Some st' → Page.invariant st'.
Proof.
  intros (Hdata & Hres & Hnone) Hact Hstep.
  destruct st as [section data results]. unfold Page.step in Hstep.
  cbn [Page.currentSection Page.assessmentData Page.calculatedResults] in *.
  destruct section, act; try discriminate Hstep.
  - injection Hstep as <-. split; [done|]. split; [done|].
    intros _. by apply Hnone.
  - injection Hstep as <-. split; [|split; [done|]].
    + exact (update_invariant_ratings c Page.t_satisfaction value data Hact Hdata).
    + intros _. by apply Hnone.
  - injection Hstep as <-. split; [done|]. split; [done|].
    intros _. by apply Hnone.
  - injection Hstep as <-. split; [|split; [done|]].
    + exact (update_invariant_ratings c Page.t_motivation value data Hact Hdata).
    + intros _. by apply Hnone.
  - injection Hstep as <-. split; [done|]. split; [done|]. done.
  - destruct results; [|discriminate Hstep]. injection Hstep as <-.
    apply initial_invariant.
Qed.

Lemma run_invariant acts : ∀ st st',
  Page.invariant st → Forall Page.slider_action acts →
  Page.run st acts = Some st' → Page.invariant st'.
Proof.
  induction acts as [|act acts IH]; intros st st' Hinv Hacts Hrun; simpl in Hrun.
  - by injection Hrun as <-.
  - apply Forall_cons in Hacts as [Hact Hacts].
    destruct (Page.step st act) as [st1|] eqn:Hstep; [|discriminate Hrun].
    apply (IH st1 st'); [|done..]. by apply (step_invariant st act).
Qed.

(** X13. In every state the page can reach, the stored ratings belong to
    the eight categories and lie in [1, 10] (so the data is a valid input
    of the scorer), results are kept exactly while the results section is
    shown, and the results kept are those the scorer gives for the stored
    ratings. *)
Theorem page_invariant (st : Page.State) (Hreach : Page.reachable st) :
  valid_input (Page.assessmentData st) ∧
  (∀ t k q, Page.ratings t (Page.assessmentData st) !! k = Some q →
            ∃ c, k = key c) ∧
  (Page.currentSection st = Page.s_results ↔
   is_Some (Page.calculatedResults st)) ∧
  (∀ results, Page.calculatedResults st = Some results →
              results = Server.calculateResults (Page.assessmentData st)).
Proof.
  destruct Hreach as (acts & Hacts & Hrun).
  destruct (run_invariant acts _ _ initial_invariant Hacts Hrun)
    as (Hdata & Hres & Hnone).
  split; [|split; [|split]].
  - split; intros k q Hq.
    + apply slider_value_in_range. by apply (Hdata Page.t_satisfaction k).
    + apply slider_value_in_range. by apply (Hdata Page.t_motivation k).
  - intros t k q Hq. by apply (Hdata t k q).
  - split.
    + intros Hsec. rewrite (Hres Hsec). by eexists.
    + intros [r Hr].
      destruct (results_section_or_not (Page.currentSection st)) as [|Hne];
        [done|]. rewrite (Hnone Hne) in Hr. discriminate Hr.
  - intros results Hr.
    destruct (results_section_or_not (Page.currentSection st)) as [Hsec|Hne].
    + rewrite (Hres Hsec) in Hr. by injection Hr as <-.
    + rewrite (Hnone Hne) in Hr. discriminate Hr.
Qed.

Lemma page_invariant_witness :
  valid_input
    (Page.updateAssessmentData health Page.t_satisfaction 7
       (AssessmentData.mk ∅ ∅)).
Proof.
  refine (proj1 (page_invariant
    {| Page.currentSection := Page.s_satisfaction;
       Page.assessmentData :=
         Page.updateAssessmentData health Page.t_satisfaction 7
           (AssessmentData.mk ∅ ∅);
       Page.calculatedResults := None |} _)).
  exists [Page.BeginAssessment; Page.SlideSatisfaction health 7]. split.
  - repeat constructor. exists 7%Z. split; [lia|reflexivity].
  - reflexivity.
Defined.

(** X14. In a reachable state that shows the results, "Retake
    Assessment" is available and brings the page back to its initial
    state, with every rating forgotten; no other state-changing control
    is available there. *)
Theorem retake_resets (st : Page.State) (Hreach : Page.reachable st)
    (Hsec : Page.currentSection st = Page.s_results) :
  Page.step st Page.RetakeAssessment = Some Page.initial ∧
  ∀ act, is_Some (Page.step st act) → act = Page.RetakeAssessment.
Proof.
  destruct Hreach as (acts & Hacts & Hrun).
  destruct (run_invariant acts _ _ initial_invariant Hacts Hrun)
    as (_ & Hres & _).
  specialize (Hres Hsec). unfold Page.step. rewrite Hsec, Hres.
  split; [done|].
  intros act [st' Hst']. by destruct act.
Qed.

Lemma retake_resets_witness :
  Page.step (Page.showResults
               {| Page.currentSection := Page.s_motivation;
                  Page.assessmentData := AssessmentData.mk ∅ ∅;
                  Page.calculatedResults := None |})
    Page.RetakeAssessment = Some Page.initial.
Proof.
  refine (proj1 (retake_resets _ _ _)).
  - exists [Page.BeginAssessment; Page.ContinueToMotivation; Page.ViewMyResults].
    split; [repeat constructor|reflexivity].
  - reflexivity.
Defined.

(** X15. The results section is reached only through "View My Results":
    a sequence of uses that leads from the initial state to the results
    section has at least three uses, and its last one is "View My
    Results". *)
Theorem results_only_by_view (acts : list Page.Action) (st : Page.State)
    (Hrun : Page.run Page.initial acts = Some st)
    (Hsec : Page.currentSection st = Page.s_results) :
  (3 <= length acts)%nat ∧ last acts = Some Page.ViewMyResults.
Proof.
  assert (∀ acts st0 st1,
            Page.run st0 acts = Some st1 →
            Page.currentSection st1 = Page.s_results →
            match Page.currentSection st0 with
            | Page.s_intro => (3 <= length acts)%nat
            | Page.s_satisfaction => (2 <= length acts)%nat
            | Page.s_motivation => (1 <= length acts)%nat
            | Page.s_results => True
            end ∧
            (acts ≠ [] → last acts = Some Page.ViewMyResults)) as H.
  { clear. induction acts as [|act acts IH]; intros st0 st1 Hrun Hsec; simpl in Hrun.
    - injection Hrun as <-. rewrite Hsec. done.
    - destruct (Page.step st0 act) as [st'|] eqn:Hstep; [|discriminate Hrun].
      destruct (IH st' st1 Hrun Hsec) as [Hlen Hlast].
      assert (acts = [] → act = Page.ViewMyResults) as Hend.
      { intros ->. simpl in Hrun. injection Hrun as ->.
        unfold Page.step in Hstep.
        destruct (Page.currentSection st0) eqn:E0, act; try discriminate Hstep;
          try (injection Hstep as <-; simpl in Hsec; congruence).
        destruct (Page.calculatedResults st0); [|discriminate Hstep].
        injection Hstep as <-. discriminate Hsec. }
      split.
      + unfold Page.step in Hstep. simpl.
        destruct (Page.currentSection st0) eqn:E0, act; try discriminate Hstep;
          try done;
          try (injection Hstep as <-; simpl in Hlen; lia).
      + intros _. destruct acts as [|act' acts'].
        * by rewrite Hend.
        * rewrite last_cons. by rewrite Hlast. }
  destruct (H acts Page.initial st Hrun Hsec) as [Hlen Hlast].
  split; [exact Hlen|]. apply Hlast. intros ->. simpl in Hlen. lia.
Qed.

Lemma results_only_by_view_witness :
  (3 <= 3)%nat ∧
  last [Page.BeginAssessment; Page.ContinueToMotivation; Page.ViewMyResults] =
    Some Page.ViewMyResults.
Proof.
  refine (results_only_by_view
            [Page.BeginAssessment; Page.ContinueToMotivation; Page.ViewMyResults]
            _ _ _).
  - reflexivity.
  - reflexivity.
Defined.

(** * Further properties of the request schema *)

Lemma rating_JNum_in_range q :
  rating_in_range q → rating (JS.JNum q) = Some q.
Proof.
  intros [Hlo Hhi]. simpl.
  apply Qle_bool_iff in Hlo, Hhi. by rewrite Hlo, Hhi.
Qed.

Lemma record_of_ratings_round_trip m :
  map_Forall (λ _ q, rating_in_range q) m →
  record_of_ratings (Some (Wire.json_of_ratings m)) =
  Some (delete "__proto__" m).
Proof.
  intros Hm. unfold record_of_ratings, Wire.json_of_ratings.
  destruct (decide _) as [_|Hnot].
  - do 2 f_equal. apply map_eq. intros k. rewrite lookup_omap, lookup_fmap.
    destruct (m !! k) as [q|] eqn:E; [|done]. simpl.
    apply rating_JNum_in_range. exact (Hm _ _ E).
  - destruct Hnot. intros k v Hv. rewrite lookup_fmap in Hv.
    destruct (m !! k) as [q|] eqn:E; [|discriminate]. injection Hv as <-.
    rewrite rating_JNum_in_range; [by eexists|]. exact (Hm _ _ E).
Qed.

Lemma record_of_ratings_round_trip_inv m m' :
  record_of_ratings (Some (Wire.json_of_ratings m)) = Some m' →
  m' = delete "__proto__" m ∧ map_Forall (λ _ q, rating_in_range q) m.
Proof.
  intros H.
  assert (map_Forall (λ _ q, rating_in_range q) m) as Hm.
  { unfold record_of_ratings, Wire.json_of_ratings in H.
    destruct (decide _) as [Hall|]; [|discriminate]. intros k q Hq.
    destruct (Hall k (JS.JNum q)) as [q' Hq'].
    { by rewrite lookup_fmap, Hq. }
    by apply rating_Some_in_range in Hq' as [[= <-] ?]. }
  split; [|done]. rewrite record_of_ratings_round_trip in H by done.
  by injection H.
Qed.

(** X16. What the schema gives back for what was sent: an assessment sent
    as JSON is accepted exactly when all its ratings lie in [1, 10], and
    is rejected otherwise.  The data returned is the assessment without
    the entries of a key named [__proto__]: for an assessment with no such
    key, the assessment itself. *)
Theorem assessmentSchema_round_trip (a : AssessmentData.t) :
  let returned :=
    AssessmentData.mk (delete "__proto__" (AssessmentData.satisfaction a))
                      (delete "__proto__" (AssessmentData.motivation a)) in
  (valid_input a →
   assessmentSchema (Some (Wire.json_of_assessment a)) = Some returned) ∧
  (∀ a', assessmentSchema (Some (Wire.json_of_assessment a)) = Some a' →
         a' = returned ∧ valid_input a) ∧
  (¬ valid_input a →
   assessmentSchema (Some (Wire.json_of_assessment a)) = None) ∧
  (AssessmentData.satisfaction a !! "__proto__" = None →
   AssessmentData.motivation a !! "__proto__" = None →
   returned = a).
Proof.
  intros returned.
  assert (∀ a', assessmentSchema (Some (Wire.json_of_assessment a)) = Some a' →
                a' = returned ∧ valid_input a) as Hinv.
  { intros a'. unfold assessmentSchema, Wire.json_of_assessment.
    rewrite lookup_insert_eq, lookup_insert_ne by done.
    rewrite lookup_singleton_eq.
    destruct (record_of_ratings (Some (Wire.json_of_ratings
                (AssessmentData.satisfaction a)))) as [s|] eqn:Hs; [|discriminate].
    destruct (record_of_ratings (Some (Wire.json_of_ratings
                (AssessmentData.motivation a)))) as [m|] eqn:Hm; [|discriminate].
    apply record_of_ratings_round_trip_inv in Hs as [-> ?], Hm as [-> ?].
    by intros [= <-]. }
  split; [|split; [done|split]].
  - intros [Hs Hm]. unfold assessmentSchema, Wire.json_of_assessment.
    rewrite lookup_insert_eq, lookup_insert_ne by done.
    rewrite lookup_singleton_eq.
    by rewrite !record_of_ratings_round_trip by done.
  - intros Hnot.
    destruct (assessmentSchema (Some (Wire.json_of_assessment a))) as [a'|] eqn:E;
      [|done].
    destruct Hnot. by apply (Hinv a').
  - intros Hs Hm. unfold returned. rewrite !delete_id by done. by destruct a.
Qed.

Lemma assessmentSchema_round_trip_witness :
  assessmentSchema (Some (Wire.json_of_assessment Sample.health_only)) =
  Some Sample.health_only.
Proof.
  destruct (assessmentSchema_round_trip Sample.health_only)
    as (Hsome & _ & _ & Hsame).
  rewrite <- (Hsame eq_refl eq_refl) at 2. apply Hsome.
  split; apply map_Forall_singleton; split; by apply Qle_bool_iff.
Defined.

(** X16 on an assessment sent with a [__proto__] key: the entry is
    validated and left out of the data returned. *)
Example assessmentSchema_drops_proto :
  assessmentSchema
    (Some (Wire.json_of_assessment
             (AssessmentData.mk {[ "__proto__" := 5; "health" := 7 ]} ∅))) =
  Some (AssessmentData.mk {[ "health" := 7 ]} ∅) ∧
  assessmentSchema
    (Some (Wire.json_of_assessment
             (AssessmentData.mk {[ "__proto__" := 11; "health" := 7 ]} ∅))) =
  None.
Proof. split; vm_compute; reflexivity. Qed.

(** X17. The schemas look at their own keys only: adding or changing any
    other key of the request body, or of its assessment data, does not
    change the outcome of validation. *)
Theorem schemas_ignore_unknown_keys (is_email : string → bool)
    (o : gmap string JS.json) (k : string) (v : JS.json) :
  (k ∉ ["email"; "name"; "updates"; "assessmentData"] →
   emailResultsSchema is_email (JS.JObj (<[k := v]> o)) =
   emailResultsSchema is_email (JS.JObj o)) ∧
  (k ∉ ["satisfaction"; "motivation"] →
   assessmentSchema (Some (JS.JObj (<[k := v]> o))) =
   assessmentSchema (Some (JS.JObj o))).
Proof.
  split; intros Hk.
  - unfold emailResultsSchema.
    rewrite !lookup_insert_ne; [done|..]; intros ->; apply Hk;
      repeat first [ by left | right ].
  - unfold assessmentSchema.
    rewrite !lookup_insert_ne; [done|..]; intros ->; apply Hk;
      repeat first [ by left | right ].
Qed.

Lemma schemas_ignore_unknown_keys_witness :
  emailResultsSchema Sample.is_email
    (JS.JObj (<["extra" := JS.JNull]>
                (Sample.fields (JS.JStr "user@example.com") Sample.half_rating))) =
  emailResultsSchema Sample.is_email Sample.half_request.
Proof.
  refine (proj1 (schemas_ignore_unknown_keys Sample.is_email
                   (Sample.fields (JS.JStr "user@example.com") Sample.half_rating)
                   "extra" JS.JNull) _).
  intros H. repeat (apply elem_of_cons in H as [H|H]; [discriminate H|]).
  by apply elem_of_nil in H.
Defined.

Lemma string_email_Some is_email j e :
  string_email is_email j = Some e → j = Some (JS.JStr e) ∧ is_email e = true.
Proof.
  destruct j as [[|?|?|s|?|?]|]; simpl; try discriminate.
  destruct (is_email s) eqn:E; [|discriminate]. by intros [= <-].
Qed.

Lemma string_optional_Some j n : string_optional j = Some n → j = JS.JStr <$> n.
Proof. destruct j as [[|?|?|s|?|?]|]; simpl; try discriminate; by intros [= <-]. Qed.

Lemma boolean_optional_Some j u : boolean_optional j = Some u → j = JS.JBool <$> u.
Proof. destruct j as [[|b|?|?|?|?]|]; simpl; try discriminate; by intros [= <-]. Qed.

(** X18. What validation returns is what the body carried: when the
    request schema accepts a body, the body is an object whose email is a
    string that passes the email test, whose name and updates, if any, are
    a string and a boolean, and the returned fields are those values; the
    returned assessment data is what the assessment schema returns for the
    body's assessment data, and all its ratings lie in [1, 10]. *)
Theorem emailResultsSchema_sound (is_email : string → bool) (body : JS.json)
    (v : EmailResultsRequest.t)
    (Hparse : emailResultsSchema is_email body = Some v) :
  ∃ o, body = JS.JObj o ∧
       o !! "email" = Some (JS.JStr (EmailResultsRequest.email v)) ∧
       is_email (EmailResultsRequest.email v) = true ∧
       o !! "name" = JS.JStr <$> EmailResultsRequest.name v ∧
       o !! "updates" = JS.JBool <$> EmailResultsRequest.updates v ∧
       assessmentSchema (o !! "assessmentData") =
         Some (EmailResultsRequest.assessmentData v) ∧
       valid_input (EmailResultsRequest.assessmentData v).
Proof.
  destruct body as [|b|q|t|l|o]; try discriminate Hparse.
  exists o. split; [done|]. unfold emailResultsSchema in Hparse.
  destruct (string_email is_email (o !! "email")) as [e|] eqn:He;
    [|discriminate Hparse].
  destruct (string_optional (o !! "name")) as [n|] eqn:Hn;
    [|discriminate Hparse].
  destruct (boolean_optional (o !! "updates")) as [u|] eqn:Hu;
    [|discriminate Hparse].
  destruct (assessmentSchema (o !! "assessmentData")) as [a|] eqn:Ha;
    [|discriminate Hparse].
  injection Hparse as <-. simpl.
  apply string_email_Some in He as [He1 He2].
  apply string_optional_Some in Hn. apply boolean_optional_Some in Hu.
  do 5 (split; [done|]). by apply (assessmentSchema_valid _ _ Ha).
Qed.

Lemma emailResultsSchema_sound_witness :
  ∃ o, Sample.half_request = JS.JObj o ∧
       o !! "email" = Some (JS.JStr "user@example.com").
Proof.
  destruct (emailResultsSchema_sound Sample.is_email Sample.half_request
              (EmailResultsRequest.mk "user@example.com" None None Sample.half_input))
    as (o & Ho & He & _).
  - vm_compute; reflexivity.
  - exists o. split; [exact Ho|exact He].
Defined.

(** * Further properties of the handler *)

Lemma truthy_string_lookup (env : gmap string string) k :
  JS.truthy_string (env !! k) = true →
  env !! k = Some (env !!! k) ∧ env !!! k ≠ EmptyString.
Proof.
  unfold JS.truthy_string. rewrite lookup_total_alt.
  destruct (env !! k) as [s|]; simpl; [|discriminate].
  intros H. split; [done|]. intros ->. discriminate H.
Qed.

Section Handler_cases.
Variable is_email : string → bool.
Variable sendMail_resolves : Server.Transport → Server.MailOptions → bool.
Variable env : gmap string string.
Variable body : JS.json.

(** The accepted path, with what the transport and the mail hold. *)
Lemma email_results_accepted_mail validatedData :
  Wire.configured env →
  emailResultsSchema is_email body = Some validatedData →
  ∃ transporter mail,
    Server.email_results is_email sendMail_resolves env body =
    (Server.Call_calculateResults (EmailResultsRequest.assessmentData validatedData)
     :: Server.Call_createTransport transporter
     :: Server.Call_sendMail transporter mail
     :: (if sendMail_resolves transporter mail
         then [Server.Respond Server.results_sent]
         else [Server.Call_console_error Server.SendMailError;
               Server.Respond Server.failed_to_send]),
     inr tt) ∧
    Server.service transporter = "gmail" ∧
    env !! "GMAIL_USER" = Some (Server.user transporter) ∧
    env !! "GMAIL_APP_PASSWORD" = Some (Server.pass transporter) ∧
    Server.to mail = EmailResultsRequest.email validatedData ∧
    Server.subject mail = "Your Wheel of Life Assessment Results" ∧
    Server.html mail =
      Server.generateEmailHTML
        (Server.calculateResults (EmailResultsRequest.assessmentData validatedData))
        (EmailResultsRequest.name validatedData).
Proof.
  intros [Hu Hp] Hparse.
  destruct (truthy_string_lookup env _ Hu) as [Hu' _].
  destruct (truthy_string_lookup env _ Hp) as [Hp' _].
  unfold Server.email_results, Server.parse, Server.sendMail.
  rewrite Hu, Hp, Hparse.
  cbn [negb orb mbind Server.M_bind Server.M_ret mret Server.emit app
       Server.try_catch Server.respond].
  match goal with
  | |- context [sendMail_resolves ?t ?m] =>
      exists t, m; destruct (sendMail_resolves t m)
  end; by repeat split.
Qed.

(** A run of the handler takes one of its three paths. *)
Lemma email_results_cases :
  let run := Server.email_results is_email sendMail_resolves env body in
  (¬ Wire.configured env ∧
   run = ([Server.Respond Server.not_configured], inr tt)) ∨
  (Wire.configured env ∧ emailResultsSchema is_email body = None ∧
   run = ([Server.Call_console_error Server.ZodError;
           Server.Respond Server.failed_to_send], inr tt)) ∨
  (Wire.configured env ∧
   ∃ v transporter mail,
     emailResultsSchema is_email body = Some v ∧
     run =
       (Server.Call_calculateResults (EmailResultsRequest.assessmentData v)
        :: Server.Call_createTransport transporter
        :: Server.Call_sendMail transporter mail
        :: (if sendMail_resolves transporter mail
            then [Server.Respond Server.results_sent]
            else [Server.Call_console_error Server.SendMailError;
                  Server.Respond Server.failed_to_send]),
        inr tt) ∧
     env !! "GMAIL_USER" = Some (Server.user transporter) ∧
     env !! "GMAIL_APP_PASSWORD" = Some (Server.pass transporter) ∧
     Server.to mail = EmailResultsRequest.email v ∧
     Server.html mail =
       Server.generateEmailHTML
         (Server.calculateResults (EmailResultsRequest.assessmentData v))
         (EmailResultsRequest.name v)).
Proof.
  intros run. unfold run, Wire.configured.
  destruct (JS.truthy_string (env !! "GMAIL_USER")) eqn:Hu;
    [destruct (JS.truthy_string (env !! "GMAIL_APP_PASSWORD")) eqn:Hp|].
  - destruct (emailResultsSchema is_email body) as [v|] eqn:Hparse.
    + right; right. split; [done|].
      destruct (email_results_accepted_mail v (conj Hu Hp) Hparse)
        as (t & m & Hrun & _ & ? & ? & ? & _ & ?).
      by exists v, t, m.
    + right; left. split; [done|]. split; [done|].
      by apply email_results_rejected.
  - left. split; [by intros [_ ?]|]. apply email_results_unconfigured. by right.
  - left. split; [by intros [? _]|]. apply email_results_unconfigured. by left.
Qed.

End Handler_cases.

(** Case analysis on the path a run of the handler takes. *)
Ltac handler_cases is_email sendMail_resolves env body :=
  let H := fresh "Hcases" in
  pose proof (email_results_cases is_email sendMail_resolves env body) as H;
  cbv zeta in H;
  destruct H as [(Hconf & Hrun)
                |[(Hconf & Hparse & Hrun)
                 |(Hconf & v & transporter & mail & Hparse & Hrun
                   & Huser & Hpass & Hto & Hhtml)]];
  rewrite Hrun;
  cbn [fst snd].

(** X19. Whatever the environment, the body and the outcome of the
    transport, the handler answers exactly once, as the last thing it
    does, with one of its three responses, and no error escapes it. *)
Theorem email_results_responds_once (is_email : string → bool)
    (sendMail_resolves : Server.Transport → Server.MailOptions → bool)
    (env : gmap string string) (body : JS.json) :
  let run := Server.email_results is_email sendMail_resolves env body in
  run.2 = inr tt ∧
  ∃ r, responses run.1 = [r] ∧
       last run.1 = Some (Server.Respond r) ∧
       (r = Server.not_configured ∨ r = Server.failed_to_send ∨
        r = Server.results_sent).
Proof.
  intros run. unfold run.
  handler_cases is_email sendMail_resolves env body.
  - split; [done|]. exists Server.not_configured. auto.
  - split; [done|]. exists Server.failed_to_send. auto.
  - split; [done|]. destruct (sendMail_resolves transporter mail).
    + exists Server.results_sent. auto.
    + exists Server.failed_to_send. auto.
Qed.

(** X20. The handler scores a request exactly when both secrets are set
    and not empty and the request schema accepts the body; what it scores
    is the assessment data the schema returned, whose ratings all lie in
    [1, 10]. *)
Theorem email_results_scores_iff (is_email : string → bool)
    (sendMail_resolves : Server.Transport → Server.MailOptions → bool)
    (env : gmap string string) (body : JS.json) :
  let run := Server.email_results is_email sendMail_resolves env body in
  (scores run.1 ↔
   Wire.configured env ∧ is_Some (emailResultsSchema is_email body)) ∧
  ∀ a, Server.Call_calculateResults a ∈ run.1 →
       valid_input a ∧
       ∃ v, emailResultsSchema is_email body = Some v ∧
            a = EmailResultsRequest.assessmentData v.
Proof.
  intros run. unfold run.
  handler_cases is_email sendMail_resolves env body.
  - split.
    + split; [no_such_event|]. by intros [? _].
    + intros a Ha. exfalso. revert Ha.
      change (¬ Server.Call_calculateResults a ∈ [Server.Respond Server.not_configured]).
      intros H. repeat (apply elem_of_cons in H as [H|H]; [discriminate H|]).
      by apply elem_of_nil in H.
  - split.
    + split; [no_such_event|]. rewrite Hparse. by intros [_ [? ?]].
    + intros a H. repeat (apply elem_of_cons in H as [H|H]; [discriminate H|]).
      by apply elem_of_nil in H.
  - split.
    + split; [by rewrite Hparse|]. intros _.
      exists (EmailResultsRequest.assessmentData v). left.
    + intros a H.
      assert (a = EmailResultsRequest.assessmentData v) as ->.
      { apply elem_of_cons in H as [[= ->]|H]; [done|].
        destruct (sendMail_resolves transporter mail);
          repeat (apply elem_of_cons in H as [H|H]; [discriminate H|]);
          by apply elem_of_nil in H. }
      split; [|by exists v].
      destruct body as [|?|?|?|?|o]; try discriminate Hparse.
      unfold emailResultsSchema in Hparse.
      destruct (string_email is_email (o !! "email")); [|discriminate Hparse].
      destruct (string_optional (o !! "name")); [|discriminate Hparse].
      destruct (boolean_optional (o !! "updates")); [|discriminate Hparse].
      destruct (assessmentSchema (o !! "assessmentData")) as [a|] eqn:Ha;
        [|discriminate Hparse].
      injection Hparse as <-. by apply (assessmentSchema_valid _ _ Ha).
Qed.

(** X21. The handler answers "Results sent successfully!" exactly when
    both secrets are set and not empty, the schema accepts the body, and
    the mail it hands to the transport is delivered. *)
Theorem email_results_success_iff (is_email : string → bool)
    (sendMail_resolves : Server.Transport → Server.MailOptions → bool)
    (env : gmap string string) (body : JS.json) :
  let run := Server.email_results is_email sendMail_resolves env body in
  responses run.1 = [Server.results_sent] ↔
  Wire.configured env ∧
  is_Some (emailResultsSchema is_email body) ∧
  ∃ t m, (t, m) ∈ Wire.mails run.1 ∧ sendMail_resolves t m = true.
Proof.
  intros run. unfold run.
  handler_cases is_email sendMail_resolves env body.
  - split; [discriminate|]. by intros [? _].
  - split; [discriminate|]. rewrite Hparse. by intros (_ & [? ?] & _).
  - destruct (sendMail_resolves transporter mail) eqn:Hsend; simpl.
    + split; [|done]. intros _. split; [done|]. split; [by rewrite Hparse|].
      exists transporter, mail. split; [left|done].
    + split; [discriminate|]. intros (_ & _ & t & m & Hin & Hres).
      apply list_elem_of_singleton in Hin as [= -> ->]. congruence.
Qed.

(** X22. The handler hands at most one mail to the transport.  A mail it
    sends goes to the address the schema returned, through a transport
    opened with the two secrets of the environment, after the request was
    scored, and carries the greeting and the three priority areas of the
    scored assessment data. *)
Theorem email_results_mail (is_email : string → bool)
    (sendMail_resolves : Server.Transport → Server.MailOptions → bool)
    (env : gmap string string) (body : JS.json) :
  let run := Server.email_results is_email sendMail_resolves env body in
  (length (Wire.mails run.1) <= 1)%nat ∧
  ∀ t m, (t, m) ∈ Wire.mails run.1 →
    ∃ v, emailResultsSchema is_email body = Some v ∧
         env !! "GMAIL_USER" = Some (Server.user t) ∧
         env !! "GMAIL_APP_PASSWORD" = Some (Server.pass t) ∧
         Server.to m = EmailResultsRequest.email v ∧
         Server.html m =
           Server.generateEmailHTML
             (Server.calculateResults (EmailResultsRequest.assessmentData v))
             (EmailResultsRequest.name v) ∧
         ∃ before after,
           run.1 = before ++ Server.Call_sendMail t m :: after ∧
           Server.Call_calculateResults (EmailResultsRequest.assessmentData v)
             ∈ before.
Proof.
  intros run. unfold run.
  handler_cases is_email sendMail_resolves env body.
  - split; [simpl; lia|]. intros t m H. by apply elem_of_nil in H.
  - split; [simpl; lia|]. intros t m H. by apply elem_of_nil in H.
  - assert (Wire.mails
              (Server.Call_calculateResults (EmailResultsRequest.assessmentData v)
               :: Server.Call_createTransport transporter
               :: Server.Call_sendMail transporter mail
               :: (if sendMail_resolves transporter mail
                   then [Server.Respond Server.results_sent]
                   else [Server.Call_console_error Server.SendMailError;
                         Server.Respond Server.failed_to_send]))
            = [(transporter, mail)]) as ->.
    { by destruct (sendMail_resolves transporter mail). }
    split; [simpl; lia|]. intros t m H.
    apply list_elem_of_singleton in H as [= -> ->].
    exists v. do 5 (split; [done|]).
    exists [Server.Call_calculateResults (EmailResultsRequest.assessmentData v);
            Server.Call_createTransport transporter]. eexists.
    split; [reflexivity|left].
Qed.

(** X23. When both secrets are set, the schema accepts the body and the
    transport fails, the handler has scored the request, has tried one
    mail and no second one, has logged the error, and answers with the
    failure response. *)
Theorem email_results_delivery_failure (is_email : string → bool)
    (sendMail_resolves : Server.Transport → Server.MailOptions → bool)
    (env : gmap string string) (body : JS.json)
    (Hconfigured : Wire.configured env)
    (Haccepted : is_Some (emailResultsSchema is_email body))
    (Hfails : ∀ t m, sendMail_resolves t m = false) :
  let run := Server.email_results is_email sendMail_resolves env body in
  responses run.1 = [Server.failed_to_send] ∧
  length (Wire.mails run.1) = 1%nat ∧
  Server.Call_console_error Server.SendMailError ∈ run.1 ∧
  scores run.1.
Proof.
  intros run. unfold run.
  handler_cases is_email sendMail_resolves env body.
  - done.
  - rewrite Hparse in Haccepted. by destruct Haccepted.
  - rewrite Hfails. split; [done|]. split; [done|]. split.
    + do 3 right. left.
    + eexists. left.
Qed.

Lemma email_results_delivery_failure_witness :
  responses (Server.email_results Sample.is_email (λ _ _, false)
               Sample.configured Sample.half_request).1 =
  [Server.failed_to_send].
Proof.
  refine (proj1 (email_results_delivery_failure Sample.is_email (λ _ _, false)
                   Sample.configured Sample.half_request _ _ _)).
  - split; vm_compute; reflexivity.
  - eexists. vm_compute. reflexivity.
  - reflexivity.
Defined.

(** X24. A secret that is set to the empty string counts as missing: the
    handler answers "not configured" and does nothing else. *)
Theorem email_results_empty_secret (is_email : string → bool)
    (sendMail_resolves : Server.Transport → Server.MailOptions → bool)
    (env : gmap string string) (body : JS.json)
    (Hempty : env !! "GMAIL_USER" = Some EmptyString ∨
              env !! "GMAIL_APP_PASSWORD" = Some EmptyString) :
  Server.email_results is_email sendMail_resolves env body =
  ([Server.Respond Server.not_configured], inr tt).
Proof.
  apply email_results_unconfigured. destruct Hempty as [-> | ->]; auto.
Qed.

Lemma email_results_empty_secret_witness :
  Server.email_results Sample.is_email Sample.always_resolves
    (<["GMAIL_APP_PASSWORD" := EmptyString]> Sample.configured)
    Sample.half_request =
  ([Server.Respond Server.not_configured], inr tt).
Proof.
  refine (email_results_empty_secret Sample.is_email Sample.always_resolves
            (<["GMAIL_APP_PASSWORD" := EmptyString]> Sample.configured)
            Sample.half_request _).
  right. vm_compute; reflexivity.
Defined.

Lemma emailResultsSchema_assessmentData is_email o v :
  emailResultsSchema is_email (JS.JObj o) = Some v →
  assessmentSchema (o !! "assessmentData") =
    Some (EmailResultsRequest.assessmentData v).
Proof.
  unfold emailResultsSchema. intros Hparse.
  destruct (string_email is_email (o !! "email")); [|discriminate Hparse].
  destruct (string_optional (o !! "name")); [|discriminate Hparse].
  destruct (boolean_optional (o !! "updates")); [|discriminate Hparse].
  destruct (assessmentSchema (o !! "assessmentData")) as [a|];
    [|discriminate Hparse].
  by injection Hparse as <-.
Qed.

Lemma assessmentSchema_json_of_assessment a :
  valid_input a →
  assessmentSchema (Some (Wire.json_of_assessment a)) =
  Some (AssessmentData.mk (delete "__proto__" (AssessmentData.satisfaction a))
                          (delete "__proto__" (AssessmentData.motivation a))).
Proof.
  intros [Hs Hm]. unfold assessmentSchema, Wire.json_of_assessment.
  rewrite lookup_insert_eq, lookup_insert_ne by done.
  rewrite lookup_singleton_eq.
  by rewrite !record_of_ratings_round_trip by done.
Qed.

(** The scorer does not read a key named [__proto__]. *)
Lemma calculateResults_without_proto a :
  Server.calculateResults
    (AssessmentData.mk (delete "__proto__" (AssessmentData.satisfaction a))
                       (delete "__proto__" (AssessmentData.motivation a))) =
  Server.calculateResults a.
Proof.
  apply calculateResults_ext; intros c;
    unfold read_satisfaction, read_motivation; simpl;
    rewrite lookup_delete_ne; [done| |done|]; by destruct c.
Qed.

(** X25. The e-mail lists what the page shows: when the page's ratings
    (all in [1, 10]) are sent as the assessment data of a request, every
    mail the handler sends carries as its priority areas the three the
    page shows for these ratings. *)
Theorem mail_lists_page_priorities (is_email : string → bool)
    (sendMail_resolves : Server.Transport → Server.MailOptions → bool)
    (env : gmap string string) (o : gmap string JS.json)
    (a : AssessmentData.t) (t : Server.Transport) (m : Server.MailOptions)
    (Hdata : o !! "assessmentData" = Some (Wire.json_of_assessment a))
    (Hvalid : valid_input a)
    (Hmail : (t, m) ∈ Wire.mails
               (Server.email_results is_email sendMail_resolves env (JS.JObj o)).1) :
  Server.topPriorities (Server.html m) =
  Page.priorityAreas (Client.calculateResults a).
Proof.
  revert Hmail.
  handler_cases is_email sendMail_resolves env (JS.JObj o).
  - intros H. by apply elem_of_nil in H.
  - intros H. by apply elem_of_nil in H.
  - apply emailResultsSchema_assessmentData in Hparse.
    rewrite Hdata, assessmentSchema_json_of_assessment in Hparse by done.
    injection Hparse as Hv.
    intros H.
    assert ((t, m) = (transporter, mail)) as [= -> ->].
    { destruct (sendMail_resolves transporter mail);
        by apply list_elem_of_singleton in H. }
    rewrite Hhtml, <- Hv, calculateResults_without_proto.
    change Client.calculateResults with Server.calculateResults.
    unfold Page.priorityAreas, Server.generateEmailHTML.
    cbn [Server.topPriorities]. reflexivity.
Qed.

Lemma mail_lists_page_priorities_witness :
  Server.topPriorities
    (Server.generateEmailHTML (Server.calculateResults Sample.health_only) None) =
  Page.priorityAreas (Client.calculateResults Sample.health_only).
Proof.
  refine (mail_lists_page_priorities Sample.is_email Sample.always_resolves
            Sample.configured
            {[ "email" := JS.JStr "user@example.com";
               "assessmentData" := Wire.json_of_assessment Sample.health_only ]}
            Sample.health_only
            {| Server.service := "gmail";
               Server.user := "sender@gmail.com";
               Server.pass := "secret" |}
            {| Server.from :=
                 Server.quote +:+ "Wheel of Life Assessment" +:+ Server.quote
                 +:+ " <sender@gmail.com>";
               Server.to := "user@example.com";
               Server.subject := "Your Wheel of Life Assessment Results";
               Server.html :=
                 Server.generateEmailHTML
                   (Server.calculateResults Sample.health_only) None |}
            _ _ _).
  - vm_compute; reflexivity.
  - split; apply map_Forall_singleton; split; by apply Qle_bool_iff.
  - vm_compute. left.
Defined.
